(** * Bolt protocol descriptors and heartbeat commands (sofa-mosn)

    A shallow embedding of [pkg/protocol/sofarpc/codec/boltprotocol.go]:
    the two protocol descriptors [BoltV1] and [BoltV2], the getters of
    [BoltProtocol], the package [init] that registers the descriptors, and
    the heartbeat constructors [NewBoltHeartbeat] / [NewBoltHeartbeatAck].

    The file imports three packages whose sources are not part of the
    development: [sofarpc] (constants, command structs, the registry),
    [handler] (command handlers) and [types] (the encoder and decoder
    interfaces), and it names two codecs of its own package
    ([boltV1Codec], [boltV2Codec]) that live in sibling files.  What the
    embedding needs from them is either kept abstract (a [Variable] of the
    section) or written down from the design document, and marked so. *)

From Stdlib Require Import ZArith List Bool Lia.
From stdpp Require Import base decidable option list gmap.
Import ListNotations.

Local Open Scope Z_scope.

(** ** Package [sofarpc]: the command model *)

(** Modelled from the spec: the [commandType] enumeration of the command
    model, {REQUEST, RESPONSE, REQUEST_ONEWAY}; the constants
    [sofarpc.REQUEST], [sofarpc.RESPONSE] and [sofarpc.REQUEST_ONEWAY] are
    declared in the absent package [sofarpc]. *)
Inductive CommandType : Type :=
| REQUEST
| RESPONSE
| REQUEST_ONEWAY.

#[global] Instance CommandType_eq_dec : EqDecision CommandType.
Proof. solve_decision. Defined.

(** Modelled from the spec: the struct [sofarpc.BoltRequestCommand]; its
    declaration is absent.  The fields [Protocol] ... [Timeout] are the ones
    the composite literal in [NewBoltHeartbeat] names; [ClassName],
    [HeaderMap] and [Content] are the three byte spans of the command model.
    Integers are [Z]; a byte span is a list of byte values. *)
Module BoltRequestCommand.
Record t : Type := mk {
  Protocol  : Z;            (* byte: the wire-version discriminator *)
  CmdType   : CommandType;
  CmdCode   : Z;            (* 16 bit *)
  Version   : Z;            (* byte: "ver2" *)
  ReqId     : Z;            (* uint32 *)
  CodecPro  : Z;            (* byte *)
  Timeout   : Z;            (* signed 32 bit, milliseconds *)
  ClassName : list Z;
  HeaderMap : list Z;
  Content   : list Z
}.
End BoltRequestCommand.

(** Modelled from the spec: the struct [sofarpc.BoltResponseCommand]; its
    declaration is absent.  Same fields as the request, with
    [ResponseStatus] in the place of [Timeout]. *)
Module BoltResponseCommand.
Record t : Type := mk {
  Protocol       : Z;
  CmdType        : CommandType;
  CmdCode        : Z;
  Version        : Z;
  ReqId          : Z;
  CodecPro       : Z;
  ResponseStatus : Z;       (* 16 bit *)
  ClassName      : list Z;
  HeaderMap      : list Z;
  Content        : list Z
}.
End BoltResponseCommand.

(** Modelled from the spec: a command is one of four shapes, a request or a
    response of wire version 1 or 2; the two V2 shapes carry the V2-only
    fields [protocolVersion] ("ver1") and [functionSwitch]. *)
Inductive Command : Type :=
| V1Request  (r : BoltRequestCommand.t)
| V1Response (r : BoltResponseCommand.t)
| V2Request  (r : BoltRequestCommand.t)  (protocolVersion functionSwitch : Z)
| V2Response (r : BoltResponseCommand.t) (protocolVersion functionSwitch : Z).

Definition commandType (c : Command) : CommandType :=
  match c with
  | V1Request r | V2Request r _ _ => BoltRequestCommand.CmdType r
  | V1Response r | V2Response r _ _ => BoltResponseCommand.CmdType r
  end.

Definition codecType (c : Command) : Z :=
  match c with
  | V1Request r | V2Request r _ _ => BoltRequestCommand.CodecPro r
  | V1Response r | V2Response r _ _ => BoltResponseCommand.CodecPro r
  end.



(** ** Package [sofarpc]: constants with a value in the design document *)

(** Modelled from the spec: [sofarpc.PROTOCOL_CODE_V1], "V1=1". *)
Definition PROTOCOL_CODE_V1 : Z := 1.

(** Modelled from the spec: [sofarpc.PROTOCOL_CODE_V2], "V2=2". *)
Definition PROTOCOL_CODE_V2 : Z := 2.

(** Modelled from the spec: [sofarpc.REQUEST_HEADER_LEN_V1], the fixed
    header of a V1 request is 22 bytes. *)
Definition REQUEST_HEADER_LEN_V1 : Z := 22.

(** Modelled from the spec: [sofarpc.RESPONSE_HEADER_LEN_V1], the fixed
    header of a V1 response is 20 bytes. *)
Definition RESPONSE_HEADER_LEN_V1 : Z := 20.

(** Modelled from the spec: [sofarpc.REQUEST_HEADER_LEN_V2], the fixed
    header of a V2 request is 24 bytes. *)
Definition REQUEST_HEADER_LEN_V2 : Z := 24.

(** Modelled from the spec: [sofarpc.RESPONSE_HEADER_LEN_V2], the fixed
    header of a V2 response is 22 bytes. *)
Definition RESPONSE_HEADER_LEN_V2 : Z := 22.

(** Modelled from the spec: [sofarpc.RESPONSE_STATUS_SUCCESS], "0 = success". *)
Definition RESPONSE_STATUS_SUCCESS : Z := 0.

(** ** Packages [types] and [handler] *)

(** The two codec structs of package [codec]; each implements both
    [types.Encoder] and [types.Decoder].  A value of either interface is
    the codec behind it. *)
Inductive BoltCodec : Type :=
| boltV1Codec
| boltV2Codec.

Definition Encoder : Type := BoltCodec.
Definition Decoder : Type := BoltCodec.

(** The handlers [handler.NewBoltCommandHandler()] and
    [handler.NewBoltCommandHandlerV2()] return; package [handler] is
    absent, a handler is only told apart by the constructor that made it. *)
Inductive CommandHandler : Type :=
| BoltCommandHandler
| BoltCommandHandlerV2.

Definition NewBoltCommandHandler : CommandHandler := BoltCommandHandler.
Definition NewBoltCommandHandlerV2 : CommandHandler := BoltCommandHandlerV2.

#[global] Instance BoltCodec_eq_dec : EqDecision BoltCodec.
Proof. solve_decision. Defined.

#[global] Instance CommandHandler_eq_dec : EqDecision CommandHandler.
Proof. solve_decision. Defined.

(** ** [type BoltProtocol struct] *)

Record BoltProtocol : Type := mkBoltProtocol {
  protocolCode      : Z;
  requestHeaderLen  : Z;
  responseHeaderLen : Z;
  encoder           : Encoder;
  decoder           : Decoder;
  commandHandler    : CommandHandler
}.

#[global] Instance BoltProtocol_eq_dec : EqDecision BoltProtocol.
Proof. solve_decision. Defined.

(** [var BoltV1 = &BoltProtocol{...}], a positional literal. *)
Definition BoltV1 : BoltProtocol :=
  mkBoltProtocol
    PROTOCOL_CODE_V1
    REQUEST_HEADER_LEN_V1
    RESPONSE_HEADER_LEN_V1
    boltV1Codec
    boltV1Codec
    NewBoltCommandHandler.

(** [var BoltV2 = &BoltProtocol{...}]. *)
Definition BoltV2 : BoltProtocol :=
  mkBoltProtocol
    PROTOCOL_CODE_V2
    REQUEST_HEADER_LEN_V2
    RESPONSE_HEADER_LEN_V2
    boltV2Codec
    boltV2Codec
    NewBoltCommandHandlerV2.

(** *** The getters

    Each getter is a method on the pointer receiver [b *BoltProtocol], so
    it could write to the descriptor.  A method is therefore a function
    from the receiver's state before the call to the result and the
    receiver's state after it. *)
Definition Method (A : Type) : Type := BoltProtocol -> A * BoltProtocol.

Definition GetRequestHeaderLength : Method Z :=
  fun b => (requestHeaderLen b, b).

Definition GetResponseHeaderLength : Method Z :=
  fun b => (responseHeaderLen b, b).

Definition GetEncoder : Method Encoder :=
  fun b => (encoder b, b).

Definition GetDecoder : Method Decoder :=
  fun b => (decoder b, b).

Definition GetCommandHandler : Method CommandHandler :=
  fun b => (commandHandler b, b).

(** A call of one of the five getters, and what it returned. *)
Inductive Getter : Type :=
| CallGetRequestHeaderLength
| CallGetResponseHeaderLength
| CallGetEncoder
| CallGetDecoder
| CallGetCommandHandler.

Inductive Value : Type :=
| VInt (n : Z)
| VEncoder (e : Encoder)
| VDecoder (d : Decoder)
| VHandler (h : CommandHandler).

Definition call (g : Getter) : Method Value :=
  fun b =>
    match g with
    | CallGetRequestHeaderLength =>
        let (v, b') := GetRequestHeaderLength b in (VInt v, b')
    | CallGetResponseHeaderLength =>
        let (v, b') := GetResponseHeaderLength b in (VInt v, b')
    | CallGetEncoder =>
        let (v, b') := GetEncoder b in (VEncoder v, b')
    | CallGetDecoder =>
        let (v, b') := GetDecoder b in (VDecoder v, b')
    | CallGetCommandHandler =>
        let (v, b') := GetCommandHandler b in (VHandler v, b')
    end.

(** A sequence of getter calls on one descriptor, the receiver threaded
    from each call to the next. *)
Fixpoint calls (gs : list Getter) : Method (list Value) :=
  fun b =>
    match gs with
    | [] => ([], b)
    | g :: gs' =>
        let (v, b1) := call g b in
        let (vs, b2) := calls gs' b1 in
        (v :: vs, b2)
    end.

(** ** [func init()]

    [init] calls [sofarpc.RegisterProtocol] twice and discards what the
    calls return.  The registry is package state of [sofarpc]; [init] is
    embedded over any state [R] and any implementation of the callee. *)
Definition init {R : Type} (RegisterProtocol : Z -> BoltProtocol -> R -> R)
  (st : R) : R :=
  let st := RegisterProtocol PROTOCOL_CODE_V1 BoltV1 st in
  let st := RegisterProtocol PROTOCOL_CODE_V2 BoltV2 st in
  st.

(** The callee that only records its arguments: the state is the list of
    registration calls made so far, oldest first. *)
Definition RegistrationCall : Type := (Z * BoltProtocol)%type.

Definition recordRegisterProtocol (code : Z) (p : BoltProtocol)
  (log : list RegistrationCall) : list RegistrationCall :=
  log ++ [(code, p)].

(** ** Package [sofarpc]: the protocol registry *)

Inductive RegistryError : Type :=
| DuplicateProtocol
| UnknownProtocol.

Inductive Result (A : Type) : Type :=
| Ok (a : A)
| Err (e : RegistryError).

Arguments Ok {A} a.
Arguments Err {A} e.

(** Modelled from the spec: the registry operation [register] of package
    [sofarpc] (absent).  Binding a discriminator that is already bound fails
    with [DuplicateProtocol], unless the descriptor is the one already
    bound, which changes nothing. *)
Definition register (code : Z) (p : BoltProtocol) (reg : gmap Z BoltProtocol)
  : Result (gmap Z BoltProtocol) :=
  match reg !! code with
  | None => Ok (<[code := p]> reg)
  | Some q => if decide (q = p) then Ok reg else Err DuplicateProtocol
  end.

(** Modelled from the spec: the registry operation [lookup] of package
    [sofarpc] (absent); it fails with [UnknownProtocol] when no descriptor
    is bound to the discriminator. *)
Definition lookup (code : Z) (reg : gmap Z BoltProtocol) : Result BoltProtocol :=
  match reg !! code with
  | Some p => Ok p
  | None => Err UnknownProtocol
  end.

(** Modelled from the spec: [sofarpc.RegisterProtocol] as [init] calls it
    during start-up.  A failed registration is fatal: the state stays the
    error. *)
Definition RegisterProtocol (code : Z) (p : BoltProtocol)
  (st : Result (gmap Z BoltProtocol)) : Result (gmap Z BoltProtocol) :=
  match st with
  | Ok reg => register code p reg
  | Err e => Err e
  end.

(** The registry once [init] has run on the empty one. *)
Definition startup : Result (gmap Z BoltProtocol) :=
  init RegisterProtocol (Ok ∅).

Definition lookupProtocol (code : Z) : Result BoltProtocol :=
  match startup with
  | Ok reg => lookup code reg
  | Err e => Err e
  end.

(** ** The functions of the file as entry points

    What running one function of this file does to the registry state:
    [init] makes its two calls, no other function calls the registry. *)
Inductive EntryPoint : Type :=
| Run_init
| Run_getter (g : Getter) (b : BoltProtocol)
| Run_NewBoltHeartbeat (requestId : Z)
| Run_NewBoltHeartbeatAck (requestId : Z).

Definition run {R : Type} (RegisterProtocol : Z -> BoltProtocol -> R -> R)
  (e : EntryPoint) (st : R) : R :=
  match e with
  | Run_init => init RegisterProtocol st
  | Run_getter _ _ => st
  | Run_NewBoltHeartbeat _ => st
  | Run_NewBoltHeartbeatAck _ => st
  end.

(** The wire versions this core supports. *)
Definition supported_versions : list Z := [PROTOCOL_CODE_V1; PROTOCOL_CODE_V2].

(** How many of the recorded calls registered under [code]. *)
Definition registrations (code : Z) (log : list RegistrationCall) : nat :=
  count_occ Z.eq_dec (map fst log) code.

(** ** Bytes on the wire

    A byte is a [Z] in [0, 256); every multi-byte integer is big-endian.
    [put_u32] of a negative number is its two's complement, since [/] and
    [mod] on [Z] round towards minus infinity. *)
Definition put_u8 (x : Z) : list Z := [x mod 256].

Definition put_u16 (x : Z) : list Z := [(x / 256) mod 256; x mod 256].

Definition put_u32 (x : Z) : list Z :=
  [(x / 16777216) mod 256; (x / 65536) mod 256; (x / 256) mod 256; x mod 256].

(** The number a run of bytes spells, most significant byte first. *)
Definition be (bs : list Z) : Z := fold_left (fun acc b => acc * 256 + b) bs 0.

Definition len (bs : list Z) : Z := Z.of_nat (length bs).

(** *** A resumable reader

    Reading from the bytes accumulated so far either needs more bytes than
    there are, meets something malformed, or yields a value and the bytes
    left after it. *)
Inductive Parsed (A : Type) : Type :=
| NeedMore
| Bad
| Got (a : A) (rest : list Z).

Arguments NeedMore {A}.
Arguments Bad {A}.
Arguments Got {A} a rest.

Definition Parser (A : Type) : Type := list Z -> Parsed A.

Definition pure {A : Type} (a : A) : Parser A := fun buf => Got a buf.

Definition bind {A B : Type} (p : Parser A) (f : A -> Parser B) : Parser B :=
  fun buf =>
    match p buf with
    | NeedMore => NeedMore
    | Bad => Bad
    | Got a rest => f a rest
    end.

Declare Scope parser_scope.
Delimit Scope parser_scope with parser.
Notation "'let*' x ':=' p 'in' q" := (bind p (fun x => q))
  (at level 10, x name, p at level 100, q at level 200) : parser_scope.

Definition bytes (n : nat) : Parser (list Z) :=
  fun buf =>
    if (length buf <? n)%nat then NeedMore else Got (take n buf) (drop n buf).

Definition guard (ok : bool) : Parser unit :=
  fun buf => if ok then Got tt buf else Bad.

Definition u8 : Parser Z := (let* bs := bytes 1 in pure (be bs))%parser.

Definition u16 : Parser Z := (let* bs := bytes 2 in pure (be bs))%parser.

Definition u32 : Parser Z := (let* bs := bytes 4 in pure (be bs))%parser.

(** A signed 32-bit integer, read as two's complement. *)
Definition i32 : Parser Z :=
  (let* x := u32 in pure (if x <? 2147483648 then x else x - 4294967296))%parser.

(** What [decode] answers. *)
Inductive DecodeResult : Type :=
| Incomplete
| Decoded (c : Command) (bytesConsumed : nat)
| Malformed.

(** What [encode] answers. *)
Inductive EncodeResult : Type :=
| Encoded (frame : list Z)
| WrongCommandShape
| FieldOverflow.

(** A concrete choice of the wire byte of each command type, to run the
    codec on examples. *)
Definition example_type_byte (t : CommandType) : Z :=
  match t with
  | REQUEST => 1
  | RESPONSE => 0
  | REQUEST_ONEWAY => 2
  end.

(** ** Values to compute with

    The design document fixes no value for the constants and parameters
    below; these are one choice of them, to run the definitions and to
    instantiate the results on concrete commands. *)
Definition example_HEARTBEAT : Z := 0.

Definition example_HESSIAN_SERIALIZE : Z := 1.

Definition example_known_command_code (code : Z) : bool :=
  (0 <=? code) && (code <=? 2).

Definition example_MAX_FRAME_SIZE : Z := 1048576.

Definition example_CRC_SWITCH_INDEX : Z := 0.

(** The CRC-32 of IEEE 802.3, bit by bit (reflected polynomial). *)
Definition crc32_bit (crc : Z) : Z :=
  if Z.testbit crc 0
  then Z.lxor (Z.shiftr crc 1) 0xEDB88320
  else Z.shiftr crc 1.

Definition crc32_byte (crc b : Z) : Z :=
  Nat.iter 8 crc32_bit (Z.lxor crc b).

Definition crc32_ieee (bs : list Z) : Z :=
  Z.lxor (fold_left crc32_byte bs 0xFFFFFFFF) 0xFFFFFFFF.

(** A V2 one-way request with the CRC enabled ([ver1 = 2], bit 0 of the
    switch set), and a V2 response with [ver1 = 2] and the bit clear. *)
Definition example_request : Command :=
  V2Request
    (BoltRequestCommand.mk 2 REQUEST_ONEWAY 1 1 77 5 (-20) [1; 2; 3] [4] [5; 6])
    2 1.

Definition example_response : Command :=
  V2Response
    (BoltResponseCommand.mk 2 RESPONSE 2 1 77 5 0 [] [7] [8; 9])
    2 0.

Section Bolt.

(** ** What the section leaves open

    Constants of package [sofarpc] that the file uses and the design
    document gives no value for, and the parameters of the frame codec
    that the design document names without fixing them. *)

(** [sofarpc.HEARTBEAT], the command code of a heartbeat. *)
Variable HEARTBEAT : Z.

(** [sofarpc.HESSIAN_SERIALIZE], a codec type. *)
Variable HESSIAN_SERIALIZE : Z.

(** The byte that stands for each command type on the wire. *)
Variable type_byte : CommandType -> Z.

(** The recognized set of command codes. *)
Variable known_command_code : Z -> bool.

(** The configured maximum frame size. *)
Variable MAX_FRAME_SIZE : Z.

(** The index of the CRC bit in the function switch, and the checksum. *)
Variable CRC_SWITCH_INDEX : Z.
Variable crc32 : list Z -> Z.

(** ** [func NewBoltHeartbeat(requestId uint32) *sofarpc.BoltRequestCommand]

    The literal names seven fields; the spans keep Go's zero value, the
    nil slice. *)
Definition NewBoltHeartbeat (requestId : Z) : BoltRequestCommand.t :=
  {| BoltRequestCommand.Protocol  := PROTOCOL_CODE_V1;
     BoltRequestCommand.CmdType   := REQUEST;
     BoltRequestCommand.CmdCode   := HEARTBEAT;
     BoltRequestCommand.Version   := 1;
     BoltRequestCommand.ReqId     := requestId;
     BoltRequestCommand.CodecPro  := HESSIAN_SERIALIZE;
     BoltRequestCommand.Timeout   := -1;
     BoltRequestCommand.ClassName := [];
     BoltRequestCommand.HeaderMap := [];
     BoltRequestCommand.Content   := [] |}.

(** ** [func NewBoltHeartbeatAck(requestId uint32) *sofarpc.BoltResponseCommand] *)
Definition NewBoltHeartbeatAck (requestId : Z) : BoltResponseCommand.t :=
  {| BoltResponseCommand.Protocol       := PROTOCOL_CODE_V1;
     BoltResponseCommand.CmdType        := RESPONSE;
     BoltResponseCommand.CmdCode        := HEARTBEAT;
     BoltResponseCommand.Version        := 1;
     BoltResponseCommand.ReqId          := requestId;
     BoltResponseCommand.CodecPro       := HESSIAN_SERIALIZE;
     BoltResponseCommand.ResponseStatus := RESPONSE_STATUS_SUCCESS;
     BoltResponseCommand.ClassName      := [];
     BoltResponseCommand.HeaderMap      := [];
     BoltResponseCommand.Content        := [] |}.


(** An operation that builds a command from an input fixes a codec type of
    its own when the command has the same [codecType] whatever the input. *)
Definition fixes_codec {A : Type} (op : A -> Command) : Prop :=
  exists k : Z, forall a : A, codecType (op a) = k.

(** ** The frame codecs [boltV1Codec] and [boltV2Codec] *)

Definition type_of_byte (b : Z) : option CommandType :=
  if b =? type_byte REQUEST then Some REQUEST
  else if b =? type_byte RESPONSE then Some RESPONSE
  else if b =? type_byte REQUEST_ONEWAY then Some REQUEST_ONEWAY
  else None.

Definition command_type : Parser CommandType :=
  (let* b := u8 in
   fun buf =>
     match type_of_byte b with
     | Some t => Got t buf
     | None => Bad
     end)%parser.

Definition command_code : Parser Z :=
  (let* code := u16 in
   let* _ := guard (known_command_code code) in
   pure code)%parser.

Definition within_limit (n : Z) : bool := n <=? MAX_FRAME_SIZE.

(** Modelled from the spec: the last three fields of every fixed header,
    [classLen] (2 bytes), [headerLen] (2 bytes), [contentLen] (4 bytes),
    and the three spans they declare, in that order; a declared length
    over the configured maximum is malformed, spans that have not arrived
    make the frame incomplete. *)
Definition spans : Parser (list Z * list Z * list Z) :=
  (let* classLen := u16 in
   let* headerLen := u16 in
   let* contentLen := u32 in
   let* _ := guard (within_limit classLen && within_limit headerLen
                    && within_limit contentLen) in
   let* className := bytes (Z.to_nat classLen) in
   let* header := bytes (Z.to_nat headerLen) in
   let* content := bytes (Z.to_nat contentLen) in
   pure (className, header, content))%parser.

(** Modelled from the spec: the V1 layouts.  [protocolCode] 1B @0,
    [commandType] 1B @1, [commandCode] 2B @2, [version] 1B @4, [requestId]
    4B @5, [codecType] 1B @9; then a request has [timeout] 4B @10 and the
    lengths from @14 (22 bytes in all), a response has [respStatus] 2B @10
    and the lengths from @12 (20 bytes in all). *)
Definition parse_v1 : Parser Command :=
  (let* proto := u8 in
   let* ty := command_type in
   let* code := command_code in
   let* ver2 := u8 in
   let* reqId := u32 in
   let* codec := u8 in
   match ty with
   | RESPONSE =>
       let* status := u16 in
       let* s := spans in
       pure (V1Response (BoltResponseCommand.mk proto ty code ver2 reqId codec
                           status s.1.1 s.1.2 s.2))
   | REQUEST | REQUEST_ONEWAY =>
       let* tmo := i32 in
       let* s := spans in
       pure (V1Request (BoltRequestCommand.mk proto ty code ver2 reqId codec
                          tmo s.1.1 s.1.2 s.2))
   end)%parser.

(** Modelled from the spec: the V2 layouts.  [protocolCode] 1B @0,
    [protocolVersion] 1B @1, [commandType] 1B @2, [commandCode] 2B @3,
    [version] 1B @5, [requestId] 4B @6, [codecType] 1B @10,
    [functionSwitch] 1B @11; then a request has [timeout] 4B @12 and the
    lengths from @16 (24 bytes in all), a response has [respStatus] 2B @12
    and the lengths from @14 (22 bytes in all). *)
Definition parse_v2 : Parser Command :=
  (let* proto := u8 in
   let* ver1 := u8 in
   let* ty := command_type in
   let* code := command_code in
   let* ver2 := u8 in
   let* reqId := u32 in
   let* codec := u8 in
   let* switch := u8 in
   match ty with
   | RESPONSE =>
       let* status := u16 in
       let* s := spans in
       pure (V2Response (BoltResponseCommand.mk proto ty code ver2 reqId codec
                           status s.1.1 s.1.2 s.2) ver1 switch)
   | REQUEST | REQUEST_ONEWAY =>
       let* tmo := i32 in
       let* s := spans in
       pure (V2Request (BoltRequestCommand.mk proto ty code ver2 reqId codec
                          tmo s.1.1 s.1.2 s.2) ver1 switch)
   end)%parser.

(** Modelled from the spec: a V2 frame ends in a CRC32 trailer when
    [protocolVersion > 1] and the CRC bit of the function switch is set. *)
Definition crc_enabled (protocolVersion functionSwitch : Z) : bool :=
  (1 <? protocolVersion) && Z.testbit functionSwitch CRC_SWITCH_INDEX.

Definition has_crc (c : Command) : bool :=
  match c with
  | V1Request _ | V1Response _ => false
  | V2Request _ v s | V2Response _ v s => crc_enabled v s
  end.

(** Modelled from the spec: [decode] of the V1 codec. *)
Definition decodeV1 (buf : list Z) : DecodeResult :=
  match parse_v1 buf with
  | NeedMore => Incomplete
  | Bad => Malformed
  | Got c rest => Decoded c (length buf - length rest)
  end.

(** Modelled from the spec: [decode] of the V2 codec.  When the frame
    carries a trailer, the four bytes after the spans must be the CRC32 of
    all the bytes of the frame before them. *)
Definition decodeV2 (buf : list Z) : DecodeResult :=
  match parse_v2 buf with
  | NeedMore => Incomplete
  | Bad => Malformed
  | Got c rest =>
      let n := (length buf - length rest)%nat in
      if has_crc c then
        match u32 rest with
        | NeedMore => Incomplete
        | Bad => Malformed
        | Got sum _ =>
            if sum =? crc32 (take n buf) mod 4294967296
            then Decoded c (n + 4)
            else Malformed
        end
      else Decoded c n
  end.

Definition is_request_type (t : CommandType) : bool :=
  match t with
  | REQUEST | REQUEST_ONEWAY => true
  | RESPONSE => false
  end.

(** Modelled from the spec: a span whose length does not fit its length
    field, 16 bits for [classLen] and [headerLen], 32 bits for
    [contentLen], makes [encode] fail with [FieldOverflow]. *)
Definition overflows (className header content : list Z) : bool :=
  (65535 <? len className) || (65535 <? len header)
  || (4294967295 <? len content).

Definition put_spans (className header content : list Z) : list Z :=
  put_u16 (len className) ++ put_u16 (len header) ++ put_u32 (len content)
  ++ className ++ header ++ content.

(** Modelled from the spec: the bytes of a V1 request, the fixed header in
    the field order and widths of the decode layout, then the spans. *)
Definition request_v1 (r : BoltRequestCommand.t) : list Z :=
  put_u8 (BoltRequestCommand.Protocol r)
  ++ put_u8 (type_byte (BoltRequestCommand.CmdType r))
  ++ put_u16 (BoltRequestCommand.CmdCode r)
  ++ put_u8 (BoltRequestCommand.Version r)
  ++ put_u32 (BoltRequestCommand.ReqId r)
  ++ put_u8 (BoltRequestCommand.CodecPro r)
  ++ put_u32 (BoltRequestCommand.Timeout r)
  ++ put_spans (BoltRequestCommand.ClassName r)
       (BoltRequestCommand.HeaderMap r) (BoltRequestCommand.Content r).

(** Modelled from the spec: the bytes of a V1 response. *)
Definition response_v1 (r : BoltResponseCommand.t) : list Z :=
  put_u8 (BoltResponseCommand.Protocol r)
  ++ put_u8 (type_byte (BoltResponseCommand.CmdType r))
  ++ put_u16 (BoltResponseCommand.CmdCode r)
  ++ put_u8 (BoltResponseCommand.Version r)
  ++ put_u32 (BoltResponseCommand.ReqId r)
  ++ put_u8 (BoltResponseCommand.CodecPro r)
  ++ put_u16 (BoltResponseCommand.ResponseStatus r)
  ++ put_spans (BoltResponseCommand.ClassName r)
       (BoltResponseCommand.HeaderMap r) (BoltResponseCommand.Content r).

(** Modelled from the spec: the bytes of a V2 request before the trailer. *)
Definition request_v2 (r : BoltRequestCommand.t) (ver1 switch : Z) : list Z :=
  put_u8 (BoltRequestCommand.Protocol r)
  ++ put_u8 ver1
  ++ put_u8 (type_byte (BoltRequestCommand.CmdType r))
  ++ put_u16 (BoltRequestCommand.CmdCode r)
  ++ put_u8 (BoltRequestCommand.Version r)
  ++ put_u32 (BoltRequestCommand.ReqId r)
  ++ put_u8 (BoltRequestCommand.CodecPro r)
  ++ put_u8 switch
  ++ put_u32 (BoltRequestCommand.Timeout r)
  ++ put_spans (BoltRequestCommand.ClassName r)
       (BoltRequestCommand.HeaderMap r) (BoltRequestCommand.Content r).

(** Modelled from the spec: the bytes of a V2 response before the trailer. *)
Definition response_v2 (r : BoltResponseCommand.t) (ver1 switch : Z) : list Z :=
  put_u8 (BoltResponseCommand.Protocol r)
  ++ put_u8 ver1
  ++ put_u8 (type_byte (BoltResponseCommand.CmdType r))
  ++ put_u16 (BoltResponseCommand.CmdCode r)
  ++ put_u8 (BoltResponseCommand.Version r)
  ++ put_u32 (BoltResponseCommand.ReqId r)
  ++ put_u8 (BoltResponseCommand.CodecPro r)
  ++ put_u8 switch
  ++ put_u16 (BoltResponseCommand.ResponseStatus r)
  ++ put_spans (BoltResponseCommand.ClassName r)
       (BoltResponseCommand.HeaderMap r) (BoltResponseCommand.Content r).

(** Modelled from the spec: the CRC32 trailer, four bytes holding the
    checksum of all the bytes before it, on the frames that enable it. *)
Definition trailer (enabled : bool) (body : list Z) : list Z :=
  if enabled then put_u32 (crc32 body) else [].

(** Modelled from the spec: [encode] of the V1 codec.  A command of the
    other wire version, or one whose [CmdType] is not of its shape, is a
    [WrongCommandShape]. *)
Definition encodeV1 (c : Command) : EncodeResult :=
  match c with
  | V1Request r =>
      if negb (is_request_type (BoltRequestCommand.CmdType r))
      then WrongCommandShape
      else if overflows (BoltRequestCommand.ClassName r)
                (BoltRequestCommand.HeaderMap r) (BoltRequestCommand.Content r)
      then FieldOverflow
      else Encoded (request_v1 r)
  | V1Response r =>
      if is_request_type (BoltResponseCommand.CmdType r)
      then WrongCommandShape
      else if overflows (BoltResponseCommand.ClassName r)
                (BoltResponseCommand.HeaderMap r) (BoltResponseCommand.Content r)
      then FieldOverflow
      else Encoded (response_v1 r)
  | V2Request _ _ _ | V2Response _ _ _ => WrongCommandShape
  end.

(** Modelled from the spec: [encode] of the V2 codec. *)
Definition encodeV2 (c : Command) : EncodeResult :=
  match c with
  | V2Request r ver1 switch =>
      if negb (is_request_type (BoltRequestCommand.CmdType r))
      then WrongCommandShape
      else if overflows (BoltRequestCommand.ClassName r)
                (BoltRequestCommand.HeaderMap r) (BoltRequestCommand.Content r)
      then FieldOverflow
      else Encoded (request_v2 r ver1 switch
                    ++ trailer (crc_enabled ver1 switch) (request_v2 r ver1 switch))
  | V2Response r ver1 switch =>
      if is_request_type (BoltResponseCommand.CmdType r)
      then WrongCommandShape
      else if overflows (BoltResponseCommand.ClassName r)
                (BoltResponseCommand.HeaderMap r) (BoltResponseCommand.Content r)
      then FieldOverflow
      else Encoded (response_v2 r ver1 switch
                    ++ trailer (crc_enabled ver1 switch) (response_v2 r ver1 switch))
  | V1Request _ | V1Response _ => WrongCommandShape
  end.

(** The method behind each interface value. *)
Definition Encode (e : Encoder) : Command -> EncodeResult :=
  match e with
  | boltV1Codec => encodeV1
  | boltV2Codec => encodeV2
  end.

Definition Decode (d : Decoder) : list Z -> DecodeResult :=
  match d with
  | boltV1Codec => decodeV1
  | boltV2Codec => decodeV2
  end.

Definition protocolCodeOf (c : Command) : Z :=
  match c with
  | V1Request r | V2Request r _ _ => BoltRequestCommand.Protocol r
  | V1Response r | V2Response r _ _ => BoltResponseCommand.Protocol r
  end.

(** Modelled from the spec: the data flow.  Outbound, the descriptor bound
    to the command's [protocolCode] supplies the encoder; inbound, the
    descriptor bound to the first byte of the buffer supplies the decoder. *)
Definition encode (c : Command) : Result EncodeResult :=
  match lookupProtocol (protocolCodeOf c) with
  | Ok p => Ok (Encode (GetEncoder p).1 c)
  | Err e => Err e
  end.

Definition decode (buf : list Z) : Result DecodeResult :=
  match buf with
  | [] => Ok Incomplete
  | b :: _ =>
      match lookupProtocol b with
      | Ok p => Ok (Decode (GetDecoder p).1 buf)
      | Err e => Err e
      end
  end.

(** *** Valid commands *)

Definition is_byte (x : Z) : bool := (0 <=? x) && (x <? 256).
Definition is_u16 (x : Z) : bool := (0 <=? x) && (x <? 65536).
Definition is_u32 (x : Z) : bool := (0 <=? x) && (x <? 4294967296).
Definition is_i32 (x : Z) : bool := (-2147483648 <=? x) && (x <? 2147483648).

Definition valid_spans (className header content : list Z) : bool :=
  forallb is_byte className && forallb is_byte header && forallb is_byte content
  && negb (overflows className header content)
  && within_limit (len className) && within_limit (len header)
  && within_limit (len content).

Definition valid_request (version : Z) (r : BoltRequestCommand.t) : bool :=
  (BoltRequestCommand.Protocol r =? version)
  && is_request_type (BoltRequestCommand.CmdType r)
  && is_u16 (BoltRequestCommand.CmdCode r)
  && known_command_code (BoltRequestCommand.CmdCode r)
  && is_byte (BoltRequestCommand.Version r)
  && is_u32 (BoltRequestCommand.ReqId r)
  && is_byte (BoltRequestCommand.CodecPro r)
  && is_i32 (BoltRequestCommand.Timeout r)
  && valid_spans (BoltRequestCommand.ClassName r)
       (BoltRequestCommand.HeaderMap r) (BoltRequestCommand.Content r).

Definition valid_response (version : Z) (r : BoltResponseCommand.t) : bool :=
  (BoltResponseCommand.Protocol r =? version)
  && negb (is_request_type (BoltResponseCommand.CmdType r))
  && is_u16 (BoltResponseCommand.CmdCode r)
  && known_command_code (BoltResponseCommand.CmdCode r)
  && is_byte (BoltResponseCommand.Version r)
  && is_u32 (BoltResponseCommand.ReqId r)
  && is_byte (BoltResponseCommand.CodecPro r)
  && is_u16 (BoltResponseCommand.ResponseStatus r)
  && valid_spans (BoltResponseCommand.ClassName r)
       (BoltResponseCommand.HeaderMap r) (BoltResponseCommand.Content r).

(** A valid command: the discriminator is the one of its wire version, the
    command type is one of its shape, the command code is a recognized one,
    every field is in the range of its type, and every span fits its
    length field and the configured maximum. *)
Definition valid_command (c : Command) : bool :=
  match c with
  | V1Request r => valid_request PROTOCOL_CODE_V1 r
  | V1Response r => valid_response PROTOCOL_CODE_V1 r
  | V2Request r ver1 switch =>
      valid_request PROTOCOL_CODE_V2 r && is_byte ver1 && is_byte switch
  | V2Response r ver1 switch =>
      valid_response PROTOCOL_CODE_V2 r && is_byte ver1 && is_byte switch
  end.

(** The three command types have three different bytes on the wire. *)
Definition type_bytes_ok : bool :=
  is_byte (type_byte REQUEST) && is_byte (type_byte RESPONSE)
  && is_byte (type_byte REQUEST_ONEWAY)
  && negb (type_byte REQUEST =? type_byte RESPONSE)
  && negb (type_byte REQUEST =? type_byte REQUEST_ONEWAY)
  && negb (type_byte RESPONSE =? type_byte REQUEST_ONEWAY).

(** *** The parts of a frame *)

Definition fixed_header_length (c : Command) : Z :=
  match c with
  | V1Request _ => REQUEST_HEADER_LEN_V1
  | V1Response _ => RESPONSE_HEADER_LEN_V1
  | V2Request _ _ _ => REQUEST_HEADER_LEN_V2
  | V2Response _ _ _ => RESPONSE_HEADER_LEN_V2
  end.

Definition spans_length (c : Command) : Z :=
  match c with
  | V1Request r | V2Request r _ _ =>
      len (BoltRequestCommand.ClassName r) + len (BoltRequestCommand.HeaderMap r)
      + len (BoltRequestCommand.Content r)
  | V1Response r | V2Response r _ _ =>
      len (BoltResponseCommand.ClassName r) + len (BoltResponseCommand.HeaderMap r)
      + len (BoltResponseCommand.Content r)
  end.

(** The bytes of a frame of [n] bytes that come after the fixed header and
    the three spans of the command [c] it holds: the trailer. *)
Definition trailer_length (c : Command) (n : Z) : Z :=
  n - (fixed_header_length c + spans_length c).

(** The three spans of a command, as they follow the fixed header. *)
Definition spans_of (c : Command) : list Z :=
  match c with
  | V1Request r | V2Request r _ _ =>
      BoltRequestCommand.ClassName r ++ BoltRequestCommand.HeaderMap r
      ++ BoltRequestCommand.Content r
  | V1Response r | V2Response r _ _ =>
      BoltResponseCommand.ClassName r ++ BoltResponseCommand.HeaderMap r
      ++ BoltResponseCommand.Content r
  end.

(** [frame] is a V2 frame holding [c]: the V2 encoder produced it from the
    valid command [c], or the V2 decoder consumed exactly it and produced
    [c]. *)
Definition v2_frame (frame : list Z) (c : Command) : Prop :=
  (valid_command c = true /\ encodeV2 c = Encoded frame)
  \/ decodeV2 frame = Decoded c (length frame).

(** Modelled from the spec: where a frame declares its codec type, one
    byte at offset 9 in the V1 layouts and at offset 10 in the V2 layouts. *)
Definition codec_offset (c : Command) : nat :=
  match c with
  | V1Request _ | V1Response _ => 9
  | V2Request _ _ _ | V2Response _ _ _ => 10
  end.

(** No operation fixes a codec type of its own: neither heartbeat
    constructor gives every command it builds the same [codecType]. *)
Definition no_hardcoded_codec : Prop :=
  ~ fixes_codec (fun requestId => V1Request (NewBoltHeartbeat requestId))
  /\ ~ fixes_codec (fun requestId => V1Response (NewBoltHeartbeatAck requestId)).

(** Reduce the projections of the two command records. *)
Ltac fields :=
  cbn [BoltRequestCommand.Protocol BoltRequestCommand.CmdType
       BoltRequestCommand.CmdCode BoltRequestCommand.Version
       BoltRequestCommand.ReqId BoltRequestCommand.CodecPro
       BoltRequestCommand.Timeout BoltRequestCommand.ClassName
       BoltRequestCommand.HeaderMap BoltRequestCommand.Content
       BoltResponseCommand.Protocol BoltResponseCommand.CmdType
       BoltResponseCommand.CmdCode BoltResponseCommand.Version
       BoltResponseCommand.ReqId BoltResponseCommand.CodecPro
       BoltResponseCommand.ResponseStatus BoltResponseCommand.ClassName
       BoltResponseCommand.HeaderMap BoltResponseCommand.Content] in *.

(** ** Results on the descriptors, the registration and the heartbeats *)

(** C1: for every request id, [NewBoltHeartbeat] returns a request command
    with protocol code V1, command type REQUEST, command code HEARTBEAT,
    version 1, that request id, timeout -1, and the codec type the source
    takes as its default, HESSIAN_SERIALIZE. *)
Theorem NewBoltHeartbeat_fields (requestId : Z) :
  BoltRequestCommand.Protocol (NewBoltHeartbeat requestId) = PROTOCOL_CODE_V1
  /\ BoltRequestCommand.CmdType (NewBoltHeartbeat requestId) = REQUEST
  /\ BoltRequestCommand.CmdCode (NewBoltHeartbeat requestId) = HEARTBEAT
  /\ BoltRequestCommand.Version (NewBoltHeartbeat requestId) = 1
  /\ BoltRequestCommand.ReqId (NewBoltHeartbeat requestId) = requestId
  /\ BoltRequestCommand.Timeout (NewBoltHeartbeat requestId) = -1
  /\ BoltRequestCommand.CodecPro (NewBoltHeartbeat requestId) = HESSIAN_SERIALIZE.
Proof.
  unfold NewBoltHeartbeat; cbn [BoltRequestCommand.Protocol
    BoltRequestCommand.CmdType BoltRequestCommand.CmdCode
    BoltRequestCommand.Version BoltRequestCommand.ReqId
    BoltRequestCommand.Timeout BoltRequestCommand.CodecPro].
  repeat split.
Qed.

(** C2: for every request id, [NewBoltHeartbeatAck] returns a response
    command (its command type is RESPONSE) whose request id is the one
    given and whose response status is SUCCESS. *)
Theorem NewBoltHeartbeatAck_fields (requestId : Z) :
  commandType (V1Response (NewBoltHeartbeatAck requestId)) = RESPONSE
  /\ BoltResponseCommand.ReqId (NewBoltHeartbeatAck requestId) = requestId
  /\ BoltResponseCommand.ResponseStatus (NewBoltHeartbeatAck requestId)
     = RESPONSE_STATUS_SUCCESS.
Proof.
  unfold NewBoltHeartbeatAck, commandType;
    cbn [BoltResponseCommand.CmdType BoltResponseCommand.ReqId
         BoltResponseCommand.ResponseStatus].
  repeat split.
Qed.

Lemma init_appends_two_calls (log : list RegistrationCall) :
  init recordRegisterProtocol log
  = log ++ [(PROTOCOL_CODE_V1, BoltV1); (PROTOCOL_CODE_V2, BoltV2)].
Proof.
  unfold init, recordRegisterProtocol.
  rewrite <- app_assoc. reflexivity.
Qed.

(** C5: the package [init] makes exactly two registration calls, [BoltV1]
    under PROTOCOL_CODE_V1 and [BoltV2] under PROTOCOL_CODE_V2; each
    supported wire version is registered exactly once and nothing else is
    registered; no other function of the file makes a registration call. *)
Theorem init_registers_each_version_once :
  init recordRegisterProtocol []
  = [(PROTOCOL_CODE_V1, BoltV1); (PROTOCOL_CODE_V2, BoltV2)]
  /\ (forall code : Z,
        registrations code (init recordRegisterProtocol [])
        = if existsb (Z.eqb code) supported_versions then 1%nat else 0%nat)
  /\ (forall (e : EntryPoint) (log : list RegistrationCall),
        run recordRegisterProtocol e log
        = match e with
          | Run_init =>
              log ++ [(PROTOCOL_CODE_V1, BoltV1); (PROTOCOL_CODE_V2, BoltV2)]
          | _ => log
          end).
Proof.
  split; [apply (init_appends_two_calls []) |].
  split.
  - intros code. rewrite init_appends_two_calls.
    unfold registrations, supported_versions, PROTOCOL_CODE_V1, PROTOCOL_CODE_V2.
    cbn [app map fst count_occ existsb].
    destruct (Z.eqb_spec code 1) as [E1 | N1];
      destruct (Z.eqb_spec code 2) as [E2 | N2];
      destruct (Z.eq_dec 1 code) as [D1 | D1];
      destruct (Z.eq_dec 2 code) as [D2 | D2];
      cbn [orb]; first [reflexivity | lia].
  - intros e log. destruct e; cbn [run]; try reflexivity.
    apply init_appends_two_calls.
Qed.

Lemma call_frame (g : Getter) (b : BoltProtocol) : (call g b).2 = b.
Proof. destruct g; reflexivity. Qed.

Lemma calls_frame (gs : list Getter) (b : BoltProtocol) :
  calls gs b = (map (fun g => (call g b).1) gs, b).
Proof.
  induction gs as [| g gs IH]; cbn [calls map]; [reflexivity |].
  destruct (call g b) as [v b1] eqn:Hcall.
  assert (b1 = b) as -> by (rewrite <- (call_frame g b), Hcall; reflexivity).
  rewrite IH. reflexivity.
Qed.

(** C9: a descriptor is a pure value holder.  On the descriptor built from
    six components, each getter returns the component it is named after and
    leaves the descriptor as it was; and any sequence of getter calls on a
    descriptor leaves it unchanged and returns, call by call, what each
    getter returns on the descriptor at the start. *)
Theorem getters_return_components_and_keep_descriptor
  (code reqLen respLen : Z) (e : Encoder) (d : Decoder) (h : CommandHandler)
  (gs : list Getter) :
  let b := mkBoltProtocol code reqLen respLen e d h in
  GetRequestHeaderLength b = (reqLen, b)
  /\ GetResponseHeaderLength b = (respLen, b)
  /\ GetEncoder b = (e, b)
  /\ GetDecoder b = (d, b)
  /\ GetCommandHandler b = (h, b)
  /\ calls gs b = (map (fun g => (call g b).1) gs, b).
Proof.
  intros b. repeat split. apply calls_frame.
Qed.


Lemma startup_registry :
  startup = Ok (<[PROTOCOL_CODE_V2 := BoltV2]> (<[PROTOCOL_CODE_V1 := BoltV1]> ∅)).
Proof.
  unfold startup, init, RegisterProtocol, register.
  rewrite lookup_empty.
  rewrite lookup_insert_ne by (unfold PROTOCOL_CODE_V1, PROTOCOL_CODE_V2; lia).
  rewrite lookup_empty. reflexivity.
Qed.

Lemma lookupProtocol_V1 : lookupProtocol PROTOCOL_CODE_V1 = Ok BoltV1.
Proof.
  unfold lookupProtocol, lookup. rewrite startup_registry.
  rewrite lookup_insert_ne by (unfold PROTOCOL_CODE_V1, PROTOCOL_CODE_V2; lia).
  rewrite lookup_insert_eq. reflexivity.
Qed.

Lemma lookupProtocol_V2 : lookupProtocol PROTOCOL_CODE_V2 = Ok BoltV2.
Proof.
  unfold lookupProtocol, lookup. rewrite startup_registry.
  rewrite lookup_insert_eq. reflexivity.
Qed.

Lemma lookupProtocol_inv (code : Z) (p : BoltProtocol) :
  lookupProtocol code = Ok p ->
  (code = PROTOCOL_CODE_V1 /\ p = BoltV1) \/ (code = PROTOCOL_CODE_V2 /\ p = BoltV2).
Proof.
  unfold lookupProtocol, lookup. rewrite startup_registry.
  destruct (decide (code = PROTOCOL_CODE_V2)) as [-> | N2].
  - rewrite lookup_insert_eq. intros [= <-]. right. split; reflexivity.
  - rewrite lookup_insert_ne by congruence.
    destruct (decide (code = PROTOCOL_CODE_V1)) as [-> | N1].
    + rewrite lookup_insert_eq. intros [= <-]. left. split; reflexivity.
    + rewrite lookup_insert_ne by congruence.
      rewrite lookup_empty. discriminate.
Qed.

(** C10: a descriptor that [init] registers under a discriminator byte, or
    that a lookup by a discriminator byte returns once [init] has run, has
    that byte as its own [protocolCode]. *)
Theorem registered_descriptor_has_its_discriminator (code : Z) (p : BoltProtocol) :
  In (code, p) (init recordRegisterProtocol []) \/ lookupProtocol code = Ok p ->
  protocolCode p = code.
Proof.
  intros [Hin | Hlk].
  - rewrite init_appends_two_calls in Hin. cbn [app In] in Hin.
    destruct Hin as [[= <- <-] | [[= <- <-] | []]]; reflexivity.
  - destruct (lookupProtocol_inv code p Hlk) as [[-> ->] | [-> ->]]; reflexivity.
Qed.

(** C3: once [init] has run, the descriptor bound to discriminator byte 1
    is [BoltV1], whose getters report a request header of 22 bytes and a
    response header of 20 bytes, and the descriptor bound to byte 2 is
    [BoltV2], whose getters report 24 and 22. *)
Theorem registered_header_lengths :
  lookupProtocol 1 = Ok BoltV1
  /\ (GetRequestHeaderLength BoltV1).1 = 22
  /\ (GetResponseHeaderLength BoltV1).1 = 20
  /\ lookupProtocol 2 = Ok BoltV2
  /\ (GetRequestHeaderLength BoltV2).1 = 24
  /\ (GetResponseHeaderLength BoltV2).1 = 22.
Proof.
  split; [exact lookupProtocol_V1 |].
  split; [reflexivity |].
  split; [reflexivity |].
  split; [exact lookupProtocol_V2 |].
  split; reflexivity.
Qed.

(** ** Results on the frame codecs *)

Lemma be_put_u8 (x : Z) : 0 <= x < 256 -> be (put_u8 x) = x.
Proof.
  intros Hx. unfold be, put_u8; cbn [fold_left].
  rewrite Z.mod_small by lia. lia.
Qed.

Lemma be_put_u16 (x : Z) : 0 <= x < 65536 -> be (put_u16 x) = x.
Proof.
  intros Hx. unfold be, put_u16; cbn [fold_left].
  rewrite (Z.mod_small (x / 256)) by (split; [apply Z.div_pos | apply Z.div_lt_upper_bound]; lia).
  pose proof (Z.div_mod x 256). lia.
Qed.

Lemma be_put_u32_mod (x : Z) : be (put_u32 x) = x mod 4294967296.
Proof.
  unfold be, put_u32; cbn [fold_left].
  assert (x / 65536 = x / 256 / 256) as Q2
    by (rewrite Z.div_div by lia; reflexivity).
  assert (x / 16777216 = x / 65536 / 256) as Q3
    by (rewrite Z.div_div by lia; reflexivity).
  assert (x / 4294967296 = x / 16777216 / 256) as Q4
    by (rewrite Z.div_div by lia; reflexivity).
  pose proof (Z.div_mod x 256 ltac:(lia)) as E0.
  pose proof (Z.div_mod (x / 256) 256 ltac:(lia)) as E1.
  pose proof (Z.div_mod (x / 65536) 256 ltac:(lia)) as E2.
  pose proof (Z.div_mod (x / 16777216) 256 ltac:(lia)) as E3.
  rewrite <- Q2 in E1. rewrite <- Q3 in E2. rewrite <- Q4 in E3.
  pose proof (Z.mod_pos_bound x 256 ltac:(lia)).
  pose proof (Z.mod_pos_bound (x / 256) 256 ltac:(lia)).
  pose proof (Z.mod_pos_bound (x / 65536) 256 ltac:(lia)).
  pose proof (Z.mod_pos_bound (x / 16777216) 256 ltac:(lia)).
  apply (Z.mod_unique x 4294967296 (x / 4294967296)); lia.
Qed.

Lemma be_put_u32 (x : Z) : 0 <= x < 4294967296 -> be (put_u32 x) = x.
Proof.
  intros Hx. rewrite be_put_u32_mod. apply Z.mod_small. exact Hx.
Qed.

Lemma bytes_app (l rest : list Z) : bytes (length l) (l ++ rest) = Got l rest.
Proof.
  unfold bytes.
  destruct (Nat.ltb_spec (length (l ++ rest)) (length l)) as [Hlt | _].
  - rewrite length_app in Hlt. lia.
  - rewrite take_app_length, drop_app_length. reflexivity.
Qed.

Lemma bytes_length (n : nat) (buf l rest : list Z) :
  bytes n buf = Got l rest ->
  buf = l ++ rest /\ length l = n.
Proof.
  unfold bytes.
  destruct (Nat.ltb_spec (length buf) n) as [| Hge]; [discriminate |].
  intros [= <- <-]. split.
  - symmetry. apply take_drop.
  - apply length_take_le. exact Hge.
Qed.

Lemma u8_put (x : Z) (rest : list Z) :
  0 <= x < 256 -> u8 (put_u8 x ++ rest) = Got x rest.
Proof.
  intros Hx. unfold u8, bind.
  change (bytes 1 (put_u8 x ++ rest))
    with (bytes (length (put_u8 x)) (put_u8 x ++ rest)).
  rewrite bytes_app. unfold pure.
  rewrite be_put_u8 by exact Hx. reflexivity.
Qed.

Lemma u16_put (x : Z) (rest : list Z) :
  0 <= x < 65536 -> u16 (put_u16 x ++ rest) = Got x rest.
Proof.
  intros Hx. unfold u16, bind.
  change (bytes 2 (put_u16 x ++ rest))
    with (bytes (length (put_u16 x)) (put_u16 x ++ rest)).
  rewrite bytes_app. unfold pure.
  rewrite be_put_u16 by exact Hx. reflexivity.
Qed.

Lemma u32_put_mod (x : Z) (rest : list Z) :
  u32 (put_u32 x ++ rest) = Got (x mod 4294967296) rest.
Proof.
  unfold u32, bind.
  change (bytes 4 (put_u32 x ++ rest))
    with (bytes (length (put_u32 x)) (put_u32 x ++ rest)).
  rewrite bytes_app. unfold pure.
  rewrite be_put_u32_mod. reflexivity.
Qed.

Lemma u32_put (x : Z) (rest : list Z) :
  0 <= x < 4294967296 -> u32 (put_u32 x ++ rest) = Got x rest.
Proof.
  intros Hx. rewrite u32_put_mod, Z.mod_small by exact Hx. reflexivity.
Qed.

Lemma i32_put (x : Z) (rest : list Z) :
  -2147483648 <= x < 2147483648 -> i32 (put_u32 x ++ rest) = Got x rest.
Proof.
  intros Hx. unfold i32, bind. rewrite u32_put_mod. unfold pure.
  destruct (Z_lt_le_dec x 0) as [Hneg | Hpos].
  - replace (x mod 4294967296) with (x + 4294967296).
    + destruct (Z.ltb_spec (x + 4294967296) 2147483648); [lia |].
      f_equal. lia.
    + apply (Z.mod_unique x 4294967296 (-1)); lia.
  - rewrite Z.mod_small by lia.
    destruct (Z.ltb_spec x 2147483648); [reflexivity | lia].
Qed.

Lemma bind_got {A B : Type} (p : Parser A) (f : A -> Parser B)
  (buf : list Z) (a : A) (rest : list Z) :
  p buf = Got a rest -> bind p f buf = f a rest.
Proof. intros H. unfold bind. rewrite H. reflexivity. Qed.

Lemma bind_inv {A B : Type} (p : Parser A) (f : A -> Parser B)
  (buf : list Z) (b : B) (rest : list Z) :
  bind p f buf = Got b rest ->
  exists (a : A) (mid : list Z), p buf = Got a mid /\ f a mid = Got b rest.
Proof.
  unfold bind. destruct (p buf) as [| | a mid]; try discriminate.
  intros H. exists a, mid. split; [reflexivity | exact H].
Qed.

Lemma is_byte_range (x : Z) : is_byte x = true -> 0 <= x < 256.
Proof. unfold is_byte. lia. Qed.

Lemma is_u16_range (x : Z) : is_u16 x = true -> 0 <= x < 65536.
Proof. unfold is_u16. lia. Qed.

Lemma is_u32_range (x : Z) : is_u32 x = true -> 0 <= x < 4294967296.
Proof. unfold is_u32. lia. Qed.

Lemma is_i32_range (x : Z) : is_i32 x = true -> -2147483648 <= x < 2147483648.
Proof. unfold is_i32. lia. Qed.

Lemma type_of_byte_type_byte (t : CommandType) :
  type_bytes_ok = true -> type_of_byte (type_byte t) = Some t.
Proof.
  unfold type_bytes_ok, type_of_byte. intros Hok.
  destruct t;
    repeat match goal with
      | |- context [?a =? ?b] => destruct (Z.eqb_spec a b)
      end; try reflexivity; lia.
Qed.

Lemma type_byte_range (t : CommandType) :
  type_bytes_ok = true -> 0 <= type_byte t < 256.
Proof. unfold type_bytes_ok, is_byte. intros Hok. destruct t; lia. Qed.

Lemma command_type_put (t : CommandType) (rest : list Z) :
  type_bytes_ok = true ->
  command_type (put_u8 (type_byte t) ++ rest) = Got t rest.
Proof.
  intros Hok. unfold command_type.
  rewrite (bind_got _ _ _ _ _ (u8_put _ rest (type_byte_range t Hok))).
  rewrite type_of_byte_type_byte by exact Hok. reflexivity.
Qed.

Lemma command_code_put (code : Z) (rest : list Z) :
  is_u16 code = true -> known_command_code code = true ->
  command_code (put_u16 code ++ rest) = Got code rest.
Proof.
  intros Hrange Hknown. unfold command_code.
  rewrite (bind_got _ _ _ _ _ (u16_put _ rest (is_u16_range _ Hrange))).
  rewrite Hknown. reflexivity.
Qed.

Lemma bytes_span (l rest : list Z) :
  bytes (Z.to_nat (len l)) (l ++ rest) = Got l rest.
Proof. unfold len. rewrite Nat2Z.id. apply bytes_app. Qed.

Lemma spans_put (className header content rest : list Z) :
  valid_spans className header content = true ->
  spans (put_spans className header content ++ rest)
  = Got (className, header, content) rest.
Proof.
  unfold valid_spans, overflows. intros Hv.
  repeat (apply andb_prop in Hv; destruct Hv as [Hv ?]).
  unfold spans, put_spans. rewrite <- !app_assoc.
  pose proof (Zle_0_nat (length className)).
  pose proof (Zle_0_nat (length header)).
  pose proof (Zle_0_nat (length content)).
  rewrite (bind_got _ _ _ (len className) _) by (apply u16_put; unfold len in *; lia).
  rewrite (bind_got _ _ _ (len header) _) by (apply u16_put; unfold len in *; lia).
  rewrite (bind_got _ _ _ (len content) _) by (apply u32_put; unfold len in *; lia).
  replace (within_limit (len className) && within_limit (len header)
           && within_limit (len content)) with true
    by (symmetry; repeat (apply andb_true_intro; split); assumption).
  unfold guard at 1. rewrite (bind_got _ _ _ tt _) by reflexivity.
  rewrite (bind_got _ _ _ _ _ (bytes_span className _)).
  rewrite (bind_got _ _ _ _ _ (bytes_span header _)).
  rewrite (bind_got _ _ _ _ _ (bytes_span content _)).
  reflexivity.
Qed.

Lemma parse_v1_request (code : Z) (r : BoltRequestCommand.t) (rest : list Z) :
  type_bytes_ok = true -> 0 <= code < 256 -> valid_request code r = true ->
  parse_v1 (request_v1 r ++ rest) = Got (V1Request r) rest.
Proof.
  intros Hok Hcode Hv. destruct r as [proto ty cmd ver2 reqId codec tmo cn hm ct].
  unfold valid_request in Hv; fields.
  repeat (apply andb_prop in Hv; destruct Hv as [Hv ?]).
  apply Z.eqb_eq in Hv. unfold request_v1, parse_v1; fields.
  rewrite <- !app_assoc.
  rewrite (bind_got _ _ _ proto _)
    by (apply u8_put; lia).
  rewrite (bind_got _ _ _ ty _) by (apply command_type_put; assumption).
  rewrite (bind_got _ _ _ cmd _) by (apply command_code_put; assumption).
  rewrite (bind_got _ _ _ ver2 _) by (apply u8_put, is_byte_range; assumption).
  rewrite (bind_got _ _ _ reqId _) by (apply u32_put, is_u32_range; assumption).
  rewrite (bind_got _ _ _ codec _) by (apply u8_put, is_byte_range; assumption).
  destruct ty; try discriminate;
    rewrite (bind_got _ _ _ tmo _) by (apply i32_put, is_i32_range; assumption);
    rewrite (bind_got _ _ _ _ _ (spans_put cn hm ct rest ltac:(assumption)));
    reflexivity.
Qed.

Lemma parse_v1_response (code : Z) (r : BoltResponseCommand.t) (rest : list Z) :
  type_bytes_ok = true -> 0 <= code < 256 -> valid_response code r = true ->
  parse_v1 (response_v1 r ++ rest) = Got (V1Response r) rest.
Proof.
  intros Hok Hcode Hv. destruct r as [proto ty cmd ver2 reqId codec st cn hm ct].
  unfold valid_response in Hv; fields.
  repeat (apply andb_prop in Hv; destruct Hv as [Hv ?]).
  apply Z.eqb_eq in Hv. unfold response_v1, parse_v1; fields.
  rewrite <- !app_assoc.
  rewrite (bind_got _ _ _ proto _) by (apply u8_put; lia).
  rewrite (bind_got _ _ _ ty _) by (apply command_type_put; assumption).
  rewrite (bind_got _ _ _ cmd _) by (apply command_code_put; assumption).
  rewrite (bind_got _ _ _ ver2 _) by (apply u8_put, is_byte_range; assumption).
  rewrite (bind_got _ _ _ reqId _) by (apply u32_put, is_u32_range; assumption).
  rewrite (bind_got _ _ _ codec _) by (apply u8_put, is_byte_range; assumption).
  destruct ty; try discriminate.
  rewrite (bind_got _ _ _ st _) by (apply u16_put, is_u16_range; assumption).
  rewrite (bind_got _ _ _ _ _ (spans_put cn hm ct rest ltac:(assumption))).
  reflexivity.
Qed.

Lemma parse_v2_request (code : Z) (r : BoltRequestCommand.t) (ver1 switch : Z)
  (rest : list Z) :
  type_bytes_ok = true -> 0 <= code < 256 -> valid_request code r = true ->
  is_byte ver1 = true -> is_byte switch = true ->
  parse_v2 (request_v2 r ver1 switch ++ rest) = Got (V2Request r ver1 switch) rest.
Proof.
  intros Hok Hcode Hv Hver1 Hswitch.
  destruct r as [proto ty cmd ver2 reqId codec tmo cn hm ct].
  unfold valid_request in Hv; fields.
  repeat (apply andb_prop in Hv; destruct Hv as [Hv ?]).
  apply Z.eqb_eq in Hv. unfold request_v2, parse_v2; fields.
  rewrite <- !app_assoc.
  rewrite (bind_got _ _ _ proto _) by (apply u8_put; lia).
  rewrite (bind_got _ _ _ ver1 _) by (apply u8_put, is_byte_range; assumption).
  rewrite (bind_got _ _ _ ty _) by (apply command_type_put; assumption).
  rewrite (bind_got _ _ _ cmd _) by (apply command_code_put; assumption).
  rewrite (bind_got _ _ _ ver2 _) by (apply u8_put, is_byte_range; assumption).
  rewrite (bind_got _ _ _ reqId _) by (apply u32_put, is_u32_range; assumption).
  rewrite (bind_got _ _ _ codec _) by (apply u8_put, is_byte_range; assumption).
  rewrite (bind_got _ _ _ switch _) by (apply u8_put, is_byte_range; assumption).
  destruct ty; try discriminate;
    rewrite (bind_got _ _ _ tmo _) by (apply i32_put, is_i32_range; assumption);
    rewrite (bind_got _ _ _ _ _ (spans_put cn hm ct rest ltac:(assumption)));
    reflexivity.
Qed.

Lemma parse_v2_response (code : Z) (r : BoltResponseCommand.t) (ver1 switch : Z)
  (rest : list Z) :
  type_bytes_ok = true -> 0 <= code < 256 -> valid_response code r = true ->
  is_byte ver1 = true -> is_byte switch = true ->
  parse_v2 (response_v2 r ver1 switch ++ rest) = Got (V2Response r ver1 switch) rest.
Proof.
  intros Hok Hcode Hv Hver1 Hswitch.
  destruct r as [proto ty cmd ver2 reqId codec st cn hm ct].
  unfold valid_response in Hv; fields.
  repeat (apply andb_prop in Hv; destruct Hv as [Hv ?]).
  apply Z.eqb_eq in Hv. unfold response_v2, parse_v2; fields.
  rewrite <- !app_assoc.
  rewrite (bind_got _ _ _ proto _) by (apply u8_put; lia).
  rewrite (bind_got _ _ _ ver1 _) by (apply u8_put, is_byte_range; assumption).
  rewrite (bind_got _ _ _ ty _) by (apply command_type_put; assumption).
  rewrite (bind_got _ _ _ cmd _) by (apply command_code_put; assumption).
  rewrite (bind_got _ _ _ ver2 _) by (apply u8_put, is_byte_range; assumption).
  rewrite (bind_got _ _ _ reqId _) by (apply u32_put, is_u32_range; assumption).
  rewrite (bind_got _ _ _ codec _) by (apply u8_put, is_byte_range; assumption).
  rewrite (bind_got _ _ _ switch _) by (apply u8_put, is_byte_range; assumption).
  destruct ty; try discriminate.
  rewrite (bind_got _ _ _ st _) by (apply u16_put, is_u16_range; assumption).
  rewrite (bind_got _ _ _ _ _ (spans_put cn hm ct rest ltac:(assumption))).
  reflexivity.
Qed.

Lemma consumed_app (frame rest : list Z) :
  (length (frame ++ rest) - length rest)%nat = length frame.
Proof. rewrite length_app. lia. Qed.

(** The V1 decoder on the bytes of a valid V1 command, whatever follows. *)
Lemma decodeV1_request (r : BoltRequestCommand.t) (rest : list Z) :
  type_bytes_ok = true -> valid_request PROTOCOL_CODE_V1 r = true ->
  decodeV1 (request_v1 r ++ rest) = Decoded (V1Request r) (length (request_v1 r)).
Proof.
  intros Hok Hv. unfold decodeV1.
  rewrite (parse_v1_request PROTOCOL_CODE_V1) by (try assumption; cbv; intuition discriminate).
  rewrite consumed_app. reflexivity.
Qed.

Lemma decodeV1_response (r : BoltResponseCommand.t) (rest : list Z) :
  type_bytes_ok = true -> valid_response PROTOCOL_CODE_V1 r = true ->
  decodeV1 (response_v1 r ++ rest) = Decoded (V1Response r) (length (response_v1 r)).
Proof.
  intros Hok Hv. unfold decodeV1.
  rewrite (parse_v1_response PROTOCOL_CODE_V1) by (try assumption; cbv; intuition discriminate).
  rewrite consumed_app. reflexivity.
Qed.

(** The V2 decoder on a frame body followed by the trailer it calls for. *)
Lemma decodeV2_body (c : Command) (body rest : list Z) :
  (forall tail : list Z, parse_v2 (body ++ tail) = Got c tail) ->
  decodeV2 ((body ++ trailer (has_crc c) body) ++ rest)
  = Decoded c (length (body ++ trailer (has_crc c) body)).
Proof.
  intros Hparse. unfold decodeV2. rewrite <- app_assoc, Hparse.
  rewrite consumed_app. unfold trailer.
  destruct (has_crc c).
  - rewrite u32_put_mod, take_app_length, Z.eqb_refl.
    rewrite length_app. reflexivity.
  - rewrite app_nil_r. reflexivity.
Qed.

Lemma decodeV2_request (r : BoltRequestCommand.t) (ver1 switch : Z) (rest : list Z) :
  type_bytes_ok = true ->
  valid_command (V2Request r ver1 switch) = true ->
  decodeV2 ((request_v2 r ver1 switch
             ++ trailer (crc_enabled ver1 switch) (request_v2 r ver1 switch)) ++ rest)
  = Decoded (V2Request r ver1 switch)
      (length (request_v2 r ver1 switch
               ++ trailer (crc_enabled ver1 switch) (request_v2 r ver1 switch))).
Proof.
  intros Hok Hv. cbn [valid_command] in Hv.
  apply andb_prop in Hv; destruct Hv as [Hv Hswitch].
  apply andb_prop in Hv; destruct Hv as [Hv Hver1].
  apply (decodeV2_body (V2Request r ver1 switch)). intros tail.
  apply (parse_v2_request PROTOCOL_CODE_V2); try assumption.
  cbv; intuition discriminate.
Qed.

Lemma decodeV2_response (r : BoltResponseCommand.t) (ver1 switch : Z) (rest : list Z) :
  type_bytes_ok = true ->
  valid_command (V2Response r ver1 switch) = true ->
  decodeV2 ((response_v2 r ver1 switch
             ++ trailer (crc_enabled ver1 switch) (response_v2 r ver1 switch)) ++ rest)
  = Decoded (V2Response r ver1 switch)
      (length (response_v2 r ver1 switch
               ++ trailer (crc_enabled ver1 switch) (response_v2 r ver1 switch))).
Proof.
  intros Hok Hv. cbn [valid_command] in Hv.
  apply andb_prop in Hv; destruct Hv as [Hv Hswitch].
  apply andb_prop in Hv; destruct Hv as [Hv Hver1].
  apply (decodeV2_body (V2Response r ver1 switch)). intros tail.
  apply (parse_v2_response PROTOCOL_CODE_V2); try assumption.
  cbv; intuition discriminate.
Qed.

Lemma decode_by_first_byte (code : Z) (p : BoltProtocol) (tl buf : list Z) :
  buf = code :: tl -> lookupProtocol code = Ok p ->
  decode buf = Ok (Decode (GetDecoder p).1 buf).
Proof. intros -> Hp. cbn [decode]. rewrite Hp. reflexivity. Qed.

Lemma encode_by_code (c : Command) (p : BoltProtocol) :
  lookupProtocol (protocolCodeOf c) = Ok p ->
  encode c = Ok (Encode (GetEncoder p).1 c).
Proof. intros Hp. unfold encode. rewrite Hp. reflexivity. Qed.

Lemma valid_spans_fit (className header content : list Z) :
  valid_spans className header content = true ->
  overflows className header content = false.
Proof.
  unfold valid_spans. intros Hv.
  repeat (apply andb_prop in Hv; destruct Hv as [Hv ?]).
  apply negb_true_iff. assumption.
Qed.

Lemma valid_request_inv (code : Z) (r : BoltRequestCommand.t) :
  valid_request code r = true ->
  BoltRequestCommand.Protocol r = code
  /\ is_request_type (BoltRequestCommand.CmdType r) = true
  /\ overflows (BoltRequestCommand.ClassName r) (BoltRequestCommand.HeaderMap r)
       (BoltRequestCommand.Content r) = false.
Proof.
  unfold valid_request. intros Hv.
  repeat (apply andb_prop in Hv; destruct Hv as [Hv ?]).
  apply Z.eqb_eq in Hv. auto using valid_spans_fit.
Qed.

Lemma valid_response_inv (code : Z) (r : BoltResponseCommand.t) :
  valid_response code r = true ->
  BoltResponseCommand.Protocol r = code
  /\ is_request_type (BoltResponseCommand.CmdType r) = false
  /\ overflows (BoltResponseCommand.ClassName r) (BoltResponseCommand.HeaderMap r)
       (BoltResponseCommand.Content r) = false.
Proof.
  unfold valid_response. intros Hv.
  repeat (apply andb_prop in Hv; destruct Hv as [Hv ?]).
  apply Z.eqb_eq in Hv.
  match goal with H : negb _ = true |- _ => apply negb_true_iff in H end.
  auto using valid_spans_fit.
Qed.

(** The codec of the command's wire version encodes a valid command. *)
Lemma encode_valid (c : Command) :
  valid_command c = true ->
  encode c
  = Ok (Encoded
          match c with
          | V1Request r => request_v1 r
          | V1Response r => response_v1 r
          | V2Request r v s =>
              request_v2 r v s ++ trailer (crc_enabled v s) (request_v2 r v s)
          | V2Response r v s =>
              response_v2 r v s ++ trailer (crc_enabled v s) (response_v2 r v s)
          end).
Proof.
  intros Hv. destruct c as [r | r | r v s | r v s]; cbn [valid_command] in Hv.
  - destruct (valid_request_inv _ _ Hv) as (Hp & Hty & Hfit).
    rewrite (encode_by_code _ BoltV1) by (cbn [protocolCodeOf]; rewrite Hp; apply lookupProtocol_V1).
    cbn [GetEncoder BoltV1 encoder fst Encode encodeV1]. rewrite Hty, Hfit. reflexivity.
  - destruct (valid_response_inv _ _ Hv) as (Hp & Hty & Hfit).
    rewrite (encode_by_code _ BoltV1) by (cbn [protocolCodeOf]; rewrite Hp; apply lookupProtocol_V1).
    cbn [GetEncoder BoltV1 encoder fst Encode encodeV1]. rewrite Hty, Hfit. reflexivity.
  - apply andb_prop in Hv; destruct Hv as [Hv _].
    apply andb_prop in Hv; destruct Hv as [Hv _].
    destruct (valid_request_inv _ _ Hv) as (Hp & Hty & Hfit).
    rewrite (encode_by_code _ BoltV2) by (cbn [protocolCodeOf]; rewrite Hp; apply lookupProtocol_V2).
    cbn [GetEncoder BoltV2 encoder fst Encode encodeV2]. rewrite Hty, Hfit. reflexivity.
  - apply andb_prop in Hv; destruct Hv as [Hv _].
    apply andb_prop in Hv; destruct Hv as [Hv _].
    destruct (valid_response_inv _ _ Hv) as (Hp & Hty & Hfit).
    rewrite (encode_by_code _ BoltV2) by (cbn [protocolCodeOf]; rewrite Hp; apply lookupProtocol_V2).
    cbn [GetEncoder BoltV2 encoder fst Encode encodeV2]. rewrite Hty, Hfit. reflexivity.
Qed.

(** Decoding what the encoder made of a valid command, whatever bytes
    follow the frame in the buffer. *)
Lemma decode_frame_of_valid (c : Command) (frame rest : list Z) :
  type_bytes_ok = true -> valid_command c = true ->
  encode c = Ok (Encoded frame) ->
  decode (frame ++ rest) = Ok (Decoded c (length frame)).
Proof.
  intros Hok Hv Henc. rewrite (encode_valid c Hv) in Henc.
  injection Henc as <-.
  destruct c as [r | r | r v s | r v s].
  - cbn [valid_command] in Hv.
    destruct (valid_request_inv _ _ Hv) as (Hp & _ & _).
    rewrite (decode_by_first_byte PROTOCOL_CODE_V1 BoltV1
               (tl (request_v1 r ++ rest)))
      by (first [apply lookupProtocol_V1
                | unfold request_v1; rewrite Hp; reflexivity]).
    change (Decode (GetDecoder BoltV1).1) with decodeV1.
    f_equal. apply decodeV1_request; assumption.
  - cbn [valid_command] in Hv.
    destruct (valid_response_inv _ _ Hv) as (Hp & _ & _).
    rewrite (decode_by_first_byte PROTOCOL_CODE_V1 BoltV1
               (tl (response_v1 r ++ rest)))
      by (first [apply lookupProtocol_V1
                | unfold response_v1; rewrite Hp; reflexivity]).
    change (Decode (GetDecoder BoltV1).1) with decodeV1.
    f_equal. apply decodeV1_response; assumption.
  - pose proof Hv as Hv'. cbn [valid_command] in Hv'.
    apply andb_prop in Hv'; destruct Hv' as [Hv' _].
    apply andb_prop in Hv'; destruct Hv' as [Hv' _].
    destruct (valid_request_inv _ _ Hv') as (Hp & _ & _).
    rewrite (decode_by_first_byte PROTOCOL_CODE_V2 BoltV2
               (tl ((request_v2 r v s
                     ++ trailer (crc_enabled v s) (request_v2 r v s)) ++ rest)))
      by (first [apply lookupProtocol_V2
                | unfold request_v2; rewrite Hp; reflexivity]).
    change (Decode (GetDecoder BoltV2).1) with decodeV2.
    f_equal. apply decodeV2_request; assumption.
  - pose proof Hv as Hv'. cbn [valid_command] in Hv'.
    apply andb_prop in Hv'; destruct Hv' as [Hv' _].
    apply andb_prop in Hv'; destruct Hv' as [Hv' _].
    destruct (valid_response_inv _ _ Hv') as (Hp & _ & _).
    rewrite (decode_by_first_byte PROTOCOL_CODE_V2 BoltV2
               (tl ((response_v2 r v s
                     ++ trailer (crc_enabled v s) (response_v2 r v s)) ++ rest)))
      by (first [apply lookupProtocol_V2
                | unfold response_v2; rewrite Hp; reflexivity]).
    change (Decode (GetDecoder BoltV2).1) with decodeV2.
    f_equal. apply decodeV2_response; assumption.
Qed.

(** C8: round trip.  With three distinct wire bytes for the three command
    types, every valid command, of either wire version and either shape,
    is encoded to a frame by the codec its protocol code selects, and
    decoding that frame, alone or followed by further bytes, gives back
    the command, field for field, and consumes exactly the frame. *)
Theorem decode_encode_roundtrip (c : Command) (rest : list Z) :
  type_bytes_ok = true -> valid_command c = true ->
  exists frame : list Z,
    encode c = Ok (Encoded frame)
    /\ decode frame = Ok (Decoded c (length frame))
    /\ decode (frame ++ rest) = Ok (Decoded c (length frame)).
Proof.
  intros Hok Hv. eexists. split; [apply (encode_valid c Hv) |].
  split.
  - rewrite <- (app_nil_r (match c with V1Request r => _ | _ => _ end)) at 1.
    apply decode_frame_of_valid; [assumption .. | apply (encode_valid c Hv)].
  - apply decode_frame_of_valid; [assumption .. | apply (encode_valid c Hv)].
Qed.

(** *** What each reader takes from the buffer *)

Lemma fixed_width_inv {A : Type} (n : nat) (g : list Z -> A)
  (buf : list Z) (a : A) (rest : list Z) :
  bind (bytes n) (fun bs => pure (g bs)) buf = Got a rest ->
  exists bs : list Z, buf = bs ++ rest /\ length bs = n /\ a = g bs.
Proof.
  intros H. apply bind_inv in H as (bs & mid & Hbs & Hpure).
  apply bytes_length in Hbs as [-> Hn].
  unfold pure in Hpure. injection Hpure as <- <-.
  exists bs. auto.
Qed.

Lemma be_single (bs : list Z) (x : Z) :
  length bs = 1%nat -> x = be bs -> bs = [x].
Proof.
  destruct bs as [| b [| b' bs]]; try discriminate.
  intros _ ->. unfold be; cbn [fold_left]. reflexivity.
Qed.

Lemma u8_inv (buf : list Z) (x : Z) (rest : list Z) :
  u8 buf = Got x rest -> buf = [x] ++ rest.
Proof.
  unfold u8. intros H. apply fixed_width_inv in H as (bs & -> & Hn & Hx).
  rewrite (be_single bs x Hn Hx). reflexivity.
Qed.

Lemma i32_inv (buf : list Z) (x : Z) (rest : list Z) :
  i32 buf = Got x rest ->
  exists bs : list Z, buf = bs ++ rest /\ length bs = 4%nat.
Proof.
  unfold i32. intros H. apply bind_inv in H as (u & mid & Hu & Hpure).
  apply fixed_width_inv in Hu as (bs & -> & Hn & _).
  unfold pure in Hpure. injection Hpure as _ <-.
  exists bs. auto.
Qed.

Lemma guard_inv (ok : bool) (buf : list Z) (u : unit) (rest : list Z) :
  guard ok buf = Got u rest -> rest = buf.
Proof.
  unfold guard. destruct ok; [| discriminate]. intros [= _ <-]. reflexivity.
Qed.

Lemma command_type_inv (buf : list Z) (t : CommandType) (rest : list Z) :
  command_type buf = Got t rest ->
  exists bs : list Z, buf = bs ++ rest /\ length bs = 1%nat.
Proof.
  unfold command_type. intros H. apply bind_inv in H as (b & mid & Hb & Ht).
  apply u8_inv in Hb. subst buf.
  destruct (type_of_byte b); [| discriminate].
  injection Ht as _ <-. exists [b]. auto.
Qed.

Lemma command_code_inv (buf : list Z) (code : Z) (rest : list Z) :
  command_code buf = Got code rest ->
  exists bs : list Z, buf = bs ++ rest /\ length bs = 2%nat.
Proof.
  unfold command_code. intros H. apply bind_inv in H as (x & mid & Hx & H).
  apply fixed_width_inv in Hx as (bs & -> & Hn & _).
  apply bind_inv in H as (u & mid' & Hg & Hpure).
  apply guard_inv in Hg. subst mid'.
  unfold pure in Hpure. injection Hpure as _ <-.
  exists bs. auto.
Qed.

Lemma spans_inv (buf : list Z) (s : list Z * list Z * list Z) (rest : list Z) :
  spans buf = Got s rest ->
  exists lens : list Z,
    buf = lens ++ (s.1.1 ++ s.1.2 ++ s.2) ++ rest /\ length lens = 8%nat.
Proof.
  unfold spans. intros H.
  apply bind_inv in H as (cl & m1 & H1 & H).
  apply fixed_width_inv in H1 as (b1 & -> & L1 & _).
  apply bind_inv in H as (hl & m2 & H2 & H).
  apply fixed_width_inv in H2 as (b2 & -> & L2 & _).
  apply bind_inv in H as (ctl & m3 & H3 & H).
  apply fixed_width_inv in H3 as (b3 & -> & L3 & _).
  apply bind_inv in H as (u & m4 & H4 & H). apply guard_inv in H4. subst m4.
  apply bind_inv in H as (cn & m5 & H5 & H). apply bytes_length in H5 as [-> _].
  apply bind_inv in H as (hm & m6 & H6 & H). apply bytes_length in H6 as [-> _].
  apply bind_inv in H as (ct & m7 & H7 & H). apply bytes_length in H7 as [-> _].
  unfold pure in H. injection H as <- <-. cbn [fst snd].
  exists (b1 ++ b2 ++ b3). split.
  - rewrite <- !app_assoc. reflexivity.
  - rewrite !length_app. lia.
Qed.

(** A buffer the V2 reader accepts starts with a fixed header of the
    command's shape, whose bytes at offsets 1 and 11 are the command's
    [ver1] and [switch], followed by the command's three spans. *)
Lemma parse_v2_inv (buf : list Z) (c : Command) (rest : list Z) :
  parse_v2 buf = Got c rest ->
  exists (ver1 switch : Z) (header : list Z),
    ((exists r, c = V2Request r ver1 switch)
     \/ (exists r, c = V2Response r ver1 switch))
    /\ buf = header ++ spans_of c ++ rest
    /\ len header = fixed_header_length c
    /\ header !! 1%nat = Some ver1
    /\ header !! 11%nat = Some switch.
Proof.
  unfold parse_v2. intros H.
  apply bind_inv in H as (proto & m1 & H1 & H). apply u8_inv in H1. subst buf.
  apply bind_inv in H as (ver1 & m2 & H2 & H). apply u8_inv in H2. subst m1.
  apply bind_inv in H as (ty & m3 & H3 & H).
  apply command_type_inv in H3 as (bt & -> & Lt).
  apply bind_inv in H as (code & m4 & H4 & H).
  apply command_code_inv in H4 as (bc & -> & Lc).
  apply bind_inv in H as (ver2 & m5 & H5 & H). apply u8_inv in H5. subst m4.
  apply bind_inv in H as (reqId & m6 & H6 & H).
  apply fixed_width_inv in H6 as (bi & -> & Li & _).
  apply bind_inv in H as (codec & m7 & H7 & H). apply u8_inv in H7. subst m6.
  apply bind_inv in H as (switch & m8 & H8 & H). apply u8_inv in H8. subst m7.
  destruct bt as [| t0 [| ? ?]]; try discriminate Lt.
  destruct bc as [| c0 [| c1 [| ? ?]]]; try discriminate Lc.
  destruct bi as [| i0 [| i1 [| i2 [| i3 [| ? ?]]]]]; try discriminate Li.
  exists ver1, switch.
  destruct ty.
  - apply bind_inv in H as (tmo & m9 & H9 & H).
    apply i32_inv in H9 as (bt' & -> & Lt').
    apply bind_inv in H as (s & m10 & H10 & H).
    apply spans_inv in H10 as (lens & -> & Ll).
    unfold pure in H. injection H as <- <-.
    exists ([proto; ver1; t0; c0; c1; ver2; i0; i1; i2; i3; codec; switch]
            ++ bt' ++ lens).
    split; [left; eexists; reflexivity |].
    split; [cbn [spans_of app]; fields; rewrite <- !app_assoc; reflexivity |].
    split; [| split; reflexivity].
    unfold len. rewrite !length_app, Lt', Ll. reflexivity.
  - apply bind_inv in H as (st & m9 & H9 & H).
    apply fixed_width_inv in H9 as (bs' & -> & Ls' & _).
    apply bind_inv in H as (s & m10 & H10 & H).
    apply spans_inv in H10 as (lens & -> & Ll).
    unfold pure in H. injection H as <- <-.
    exists ([proto; ver1; t0; c0; c1; ver2; i0; i1; i2; i3; codec; switch]
            ++ bs' ++ lens).
    split; [right; eexists; reflexivity |].
    split; [cbn [spans_of app]; fields; rewrite <- !app_assoc; reflexivity |].
    split; [| split; reflexivity].
    unfold len. rewrite !length_app, Ls', Ll. reflexivity.
  - apply bind_inv in H as (tmo & m9 & H9 & H).
    apply i32_inv in H9 as (bt' & -> & Lt').
    apply bind_inv in H as (s & m10 & H10 & H).
    apply spans_inv in H10 as (lens & -> & Ll).
    unfold pure in H. injection H as <- <-.
    exists ([proto; ver1; t0; c0; c1; ver2; i0; i1; i2; i3; codec; switch]
            ++ bt' ++ lens).
    split; [left; eexists; reflexivity |].
    split; [cbn [spans_of app]; fields; rewrite <- !app_assoc; reflexivity |].
    split; [| split; reflexivity].
    unfold len. rewrite !length_app, Lt', Ll. reflexivity.
Qed.

Lemma valid_v2_bytes (c : Command) (ver1 switch : Z) :
  valid_command c = true ->
  (exists r, c = V2Request r ver1 switch) \/ (exists r, c = V2Response r ver1 switch) ->
  0 <= ver1 < 256 /\ 0 <= switch < 256.
Proof.
  intros Hv [[r ->] | [r ->]]; cbn [valid_command] in Hv;
    apply andb_prop in Hv; destruct Hv as [Hv Hs];
    apply andb_prop in Hv; destruct Hv as [_ Hv];
    split; apply is_byte_range; assumption.
Qed.

(** What the V2 encoder makes of a valid command: a fixed header of the
    command's shape carrying [ver1] at offset 1 and [switch] at offset 11,
    the three spans, and the trailer those two bytes call for. *)
Lemma encodeV2_inv (c : Command) (frame : list Z) :
  valid_command c = true -> encodeV2 c = Encoded frame ->
  exists (ver1 switch : Z) (header : list Z),
    ((exists r, c = V2Request r ver1 switch)
     \/ (exists r, c = V2Response r ver1 switch))
    /\ frame = header ++ spans_of c
               ++ trailer (crc_enabled ver1 switch) (header ++ spans_of c)
    /\ len header = fixed_header_length c
    /\ header !! 1%nat = Some ver1
    /\ header !! 11%nat = Some switch.
Proof.
  intros Hv Henc.
  destruct c as [r | r | r v s | r v s]; cbn [encodeV2] in Henc;
    try discriminate Henc; exists v, s.
  - destruct (valid_v2_bytes _ v s Hv) as [Hver1 Hswitch];
      [left; eexists; reflexivity |].
    destruct (negb _); [discriminate |].
    destruct (overflows _ _ _); [discriminate |].
    assert (frame = request_v2 r v s
                    ++ trailer (crc_enabled v s) (request_v2 r v s)) as ->
      by congruence.
    exists (put_u8 (BoltRequestCommand.Protocol r)
            ++ put_u8 v
            ++ put_u8 (type_byte (BoltRequestCommand.CmdType r))
            ++ put_u16 (BoltRequestCommand.CmdCode r)
            ++ put_u8 (BoltRequestCommand.Version r)
            ++ put_u32 (BoltRequestCommand.ReqId r)
            ++ put_u8 (BoltRequestCommand.CodecPro r)
            ++ put_u8 s
            ++ put_u32 (BoltRequestCommand.Timeout r)
            ++ put_u16 (len (BoltRequestCommand.ClassName r))
            ++ put_u16 (len (BoltRequestCommand.HeaderMap r))
            ++ put_u32 (len (BoltRequestCommand.Content r))).
    split; [left; eexists; reflexivity |].
    split; [unfold request_v2, put_spans, spans_of;
            rewrite <- !app_assoc; reflexivity |].
    split; [reflexivity |].
    cbn [put_u8 put_u16 put_u32 app lookup list_lookup].
    rewrite (Z.mod_small _ _ Hver1), (Z.mod_small _ _ Hswitch).
    split; reflexivity.
  - destruct (valid_v2_bytes _ v s Hv) as [Hver1 Hswitch];
      [right; eexists; reflexivity |].
    destruct (is_request_type _); [discriminate |].
    destruct (overflows _ _ _); [discriminate |].
    assert (frame = response_v2 r v s
                    ++ trailer (crc_enabled v s) (response_v2 r v s)) as ->
      by congruence.
    exists (put_u8 (BoltResponseCommand.Protocol r)
            ++ put_u8 v
            ++ put_u8 (type_byte (BoltResponseCommand.CmdType r))
            ++ put_u16 (BoltResponseCommand.CmdCode r)
            ++ put_u8 (BoltResponseCommand.Version r)
            ++ put_u32 (BoltResponseCommand.ReqId r)
            ++ put_u8 (BoltResponseCommand.CodecPro r)
            ++ put_u8 s
            ++ put_u16 (BoltResponseCommand.ResponseStatus r)
            ++ put_u16 (len (BoltResponseCommand.ClassName r))
            ++ put_u16 (len (BoltResponseCommand.HeaderMap r))
            ++ put_u32 (len (BoltResponseCommand.Content r))).
    split; [right; eexists; reflexivity |].
    split; [unfold response_v2, put_spans, spans_of;
            rewrite <- !app_assoc; reflexivity |].
    split; [reflexivity |].
    cbn [put_u8 put_u16 put_u32 app lookup list_lookup].
    rewrite (Z.mod_small _ _ Hver1), (Z.mod_small _ _ Hswitch).
    split; reflexivity.
Qed.

Lemma trailer_bytes (enabled : bool) (body : list Z) :
  len (trailer enabled body) = if enabled then 4 else 0.
Proof. destruct enabled; reflexivity. Qed.

(** [crc_enabled] as a proposition. *)
Lemma crc_enabled_spec (ver1 switch : Z) :
  crc_enabled ver1 switch = true
  <-> 1 < ver1 /\ Z.testbit switch CRC_SWITCH_INDEX = true.
Proof.
  unfold crc_enabled. rewrite andb_true_iff, Z.ltb_lt. reflexivity.
Qed.

(** Every V2 frame is a fixed header, whose bytes at offsets 1 and 11 are
    [ver1] and [switch], then the spans of the command it holds, then a
    trailer: four bytes that spell the CRC32 of everything before them
    when [ver1] and [switch] enable the CRC, and no byte otherwise. *)
Lemma v2_frame_structure (frame : list Z) (c : Command) :
  v2_frame frame c ->
  exists (ver1 switch : Z) (header trailing : list Z),
    ((exists r, c = V2Request r ver1 switch)
     \/ (exists r, c = V2Response r ver1 switch))
    /\ frame = header ++ spans_of c ++ trailing
    /\ len header = fixed_header_length c
    /\ header !! 1%nat = Some ver1
    /\ header !! 11%nat = Some switch
    /\ len trailing = (if crc_enabled ver1 switch then 4 else 0)
    /\ (crc_enabled ver1 switch = true ->
        be trailing = crc32 (header ++ spans_of c) mod 4294967296).
Proof.
  intros [[Hv Henc] | Hdec].
  - destruct (encodeV2_inv c frame Hv Henc)
      as (ver1 & switch & header & Hshape & -> & Hlen & H1 & H11).
    exists ver1, switch, header,
      (trailer (crc_enabled ver1 switch) (header ++ spans_of c)).
    repeat (split; [assumption || reflexivity |]).
    split; [apply trailer_bytes |].
    intros ->. cbn [trailer]. apply be_put_u32_mod.
  - unfold decodeV2 in Hdec.
    destruct (parse_v2 frame) as [| | c' rest] eqn:Hparse; try discriminate Hdec.
    apply parse_v2_inv in Hparse
      as (ver1 & switch & header & Hshape & -> & Hlen & H1 & H11).
    assert (has_crc c' = crc_enabled ver1 switch) as Hcrc
      by (destruct Hshape as [[r ->] | [r ->]]; reflexivity).
    rewrite Hcrc in Hdec.
    replace (length (header ++ spans_of c' ++ rest) - length rest)%nat
      with (length (header ++ spans_of c')) in Hdec
      by (rewrite !length_app; lia).
    exists ver1, switch, header, rest.
    destruct (crc_enabled ver1 switch).
    + destruct (u32 rest) as [| | sum rest'] eqn:Hsum; try discriminate Hdec.
      destruct (Z.eqb_spec sum
                  (crc32 (take (length (header ++ spans_of c'))
                            (header ++ spans_of c' ++ rest)) mod 4294967296))
        as [Hsumeq |]; [| discriminate Hdec].
      injection Hdec as -> Hn.
      unfold u32 in Hsum.
      apply fixed_width_inv in Hsum as (bs & -> & Lbs & ->).
      rewrite !length_app in Hn.
      assert (rest' = []) as -> by (apply length_zero_iff_nil; lia).
      rewrite app_nil_r in *.
      repeat (split; [assumption || reflexivity |]).
      split; [unfold len; rewrite Lbs; reflexivity |].
      intros _. rewrite Hsumeq, app_assoc, take_app_length. reflexivity.
    + injection Hdec as -> Hn.
      rewrite !length_app in Hn.
      assert (rest = []) as -> by (apply length_zero_iff_nil; lia).
      repeat (split; [assumption || reflexivity |]).
      discriminate.
Qed.

(** C4: in every V2 frame, with [ver1] the byte of the frame at offset 1
    and [switch] the byte at offset 11, the CRC32 trailer is there (four
    bytes follow the fixed header and the spans, and they spell the CRC32
    of all the bytes before them) if and only if [ver1 > 1] and the CRC bit
    of [switch] is set, and nothing follows the spans otherwise; so a frame
    with [ver1 > 1] whose switch bit is clear carries no trailer. *)
Theorem v2_crc_trailer_iff (frame : list Z) (c : Command) :
  v2_frame frame c ->
  exists (ver1 switch : Z) (header trailing : list Z),
    ((exists r, c = V2Request r ver1 switch)
     \/ (exists r, c = V2Response r ver1 switch))
    /\ frame !! 1%nat = Some ver1
    /\ frame !! 11%nat = Some switch
    /\ frame = header ++ spans_of c ++ trailing
    /\ len header = fixed_header_length c
    /\ len trailing = trailer_length c (len frame)
    /\ (len trailing = 4
        <-> 1 < ver1 /\ Z.testbit switch CRC_SWITCH_INDEX = true)
    /\ (trailing = []
        <-> ~ (1 < ver1 /\ Z.testbit switch CRC_SWITCH_INDEX = true))
    /\ (1 < ver1 -> Z.testbit switch CRC_SWITCH_INDEX = false -> trailing = [])
    /\ (len trailing = 4 ->
        be trailing = crc32 (header ++ spans_of c) mod 4294967296).
Proof.
  intros Hframe.
  destruct (v2_frame_structure frame c Hframe)
    as (ver1 & switch & header & trailing
        & Hshape & -> & Hlen & H1 & H11 & Htl & Hcrc).
  exists ver1, switch, header, trailing.
  split; [exact Hshape |].
  split; [rewrite lookup_app_l by (apply (lookup_lt_Some _ _ _ H1)); exact H1 |].
  split; [rewrite lookup_app_l by (apply (lookup_lt_Some _ _ _ H11)); exact H11 |].
  split; [reflexivity |].
  split; [exact Hlen |].
  split.
  { unfold trailer_length. rewrite <- Hlen.
    assert (spans_length c = len (spans_of c)) as ->
      by (destruct c; unfold spans_length, spans_of, len;
          rewrite !length_app; lia).
    unfold len. rewrite !length_app. lia. }
  pose proof (crc_enabled_spec ver1 switch) as Hspec.
  destruct (crc_enabled ver1 switch).
  - assert (1 < ver1 /\ Z.testbit switch CRC_SWITCH_INDEX = true) as Hon
      by (apply Hspec; reflexivity).
    split; [split; [intros _; exact Hon | intros _; exact Htl] |].
    split; [split; [intros ->; discriminate Htl | intros Hoff; contradiction] |].
    split.
    + intros _ Hbit. destruct Hon as [_ Hset].
      rewrite Hset in Hbit. discriminate Hbit.
    + intros _. apply Hcrc. reflexivity.
  - assert (~ (1 < ver1 /\ Z.testbit switch CRC_SWITCH_INDEX = true)) as Hoff
      by (intros Hon; apply Hspec in Hon; discriminate Hon).
    assert (trailing = []) as ->
      by (apply length_zero_iff_nil; unfold len in Htl; lia).
    split; [split; [intros H; discriminate H | intros Hon; contradiction] |].
    split; [split; [intros _; exact Hoff | reflexivity] |].
    split; [reflexivity |].
    intros H; discriminate H.
Qed.

Lemma valid_codec_byte (c : Command) :
  valid_command c = true -> 0 <= codecType c < 256.
Proof.
  intros Hv. apply is_byte_range.
  destruct c as [r | r | r v s | r v s]; cbn [valid_command codecType] in *;
    unfold valid_request, valid_response in Hv;
    repeat (apply andb_prop in Hv; destruct Hv as [Hv ?]); assumption.
Qed.

(** The encoder writes the command's codec type, unchanged, at the codec
    offset of the layout. *)
Lemma encode_writes_codec (c : Command) (frame : list Z) :
  valid_command c = true -> encode c = Ok (Encoded frame) ->
  frame !! codec_offset c = Some (codecType c).
Proof.
  intros Hv Henc. pose proof (valid_codec_byte c Hv) as Hrange.
  rewrite (encode_valid c Hv) in Henc.
  assert (frame = match c with
                  | V1Request r => request_v1 r
                  | V1Response r => response_v1 r
                  | V2Request r v s =>
                      request_v2 r v s ++ trailer (crc_enabled v s) (request_v2 r v s)
                  | V2Response r v s =>
                      response_v2 r v s ++ trailer (crc_enabled v s) (response_v2 r v s)
                  end) as -> by congruence.
  destruct c as [r | r | r v s | r v s];
    unfold request_v1, response_v1, request_v2, response_v2;
    cbn [codec_offset codecType put_u8 put_u16 put_u32 app lookup list_lookup] in *;
    rewrite (Z.mod_small _ _ Hrange); reflexivity.
Qed.

Lemma heartbeat_fixes_codec :
  fixes_codec (fun requestId => V1Request (NewBoltHeartbeat requestId)).
Proof. exists HESSIAN_SERIALIZE. intros requestId. reflexivity. Qed.

Lemma heartbeat_ack_fixes_codec :
  fixes_codec (fun requestId => V1Response (NewBoltHeartbeatAck requestId)).
Proof. exists HESSIAN_SERIALIZE. intros requestId. reflexivity. Qed.

(** C6, as amended: the frame codec passes [codecType] through (the
    encoder writes the command's codec type at the codec offset of the
    frame, and decoding the frame returns a command with that codec type),
    but the two heartbeat constructors do fix a codec type of their own:
    whatever the request id, the command they build has the codec type
    HESSIAN_SERIALIZE. *)
Theorem codec_passes_through_except_heartbeats :
  (forall requestId : Z,
     codecType (V1Request (NewBoltHeartbeat requestId)) = HESSIAN_SERIALIZE
     /\ codecType (V1Response (NewBoltHeartbeatAck requestId)) = HESSIAN_SERIALIZE)
  /\ (forall c : Command,
        type_bytes_ok = true -> valid_command c = true ->
        exists (frame : list Z) (c' : Command),
          encode c = Ok (Encoded frame)
          /\ frame !! codec_offset c = Some (codecType c)
          /\ decode frame = Ok (Decoded c' (length frame))
          /\ codecType c' = codecType c).
Proof.
  split.
  - intros requestId. split; reflexivity.
  - intros c Hok Hv.
    destruct (encode c) as [[frame | |] | e] eqn:Henc;
      try (rewrite (encode_valid c Hv) in Henc; discriminate Henc).
    exists frame, c. split; [reflexivity |].
    split; [apply encode_writes_codec; assumption |].
    split; [| reflexivity].
    rewrite <- (app_nil_r frame) at 1.
    apply decode_frame_of_valid; assumption.
Qed.

(** ** Further results on the descriptors, [init] and the heartbeats *)

Lemma call_results_agree (b b' : BoltProtocol) :
  requestHeaderLen b = requestHeaderLen b' ->
  responseHeaderLen b = responseHeaderLen b' ->
  encoder b = encoder b' ->
  decoder b = decoder b' ->
  commandHandler b = commandHandler b' ->
  forall g : Getter, (call g b).1 = (call g b').1.
Proof.
  intros Hreq Hresp Henc Hdec Hh g.
  destruct g; cbn [call GetRequestHeaderLength GetResponseHeaderLength
                   GetEncoder GetDecoder GetCommandHandler fst];
    congruence.
Qed.

(** X1: the five getters expose exactly five of the six fields of a
    descriptor.  Two descriptors answer every sequence of getter calls
    alike if and only if they agree on the two header lengths, the encoder,
    the decoder and the command handler; the [protocolCode] byte has no
    getter, so replacing it changes no answer. *)
Theorem getters_expose_all_but_protocolCode (b b' : BoltProtocol) :
  ((forall gs : list Getter, (calls gs b).1 = (calls gs b').1)
   <-> requestHeaderLen b = requestHeaderLen b'
       /\ responseHeaderLen b = responseHeaderLen b'
       /\ encoder b = encoder b'
       /\ decoder b = decoder b'
       /\ commandHandler b = commandHandler b')
  /\ (forall (code : Z) (gs : list Getter),
        (calls gs (mkBoltProtocol code (requestHeaderLen b) (responseHeaderLen b)
                     (encoder b) (decoder b) (commandHandler b))).1
        = (calls gs b).1).
Proof.
  assert (forall x y : BoltProtocol,
             requestHeaderLen x = requestHeaderLen y ->
             responseHeaderLen x = responseHeaderLen y ->
             encoder x = encoder y -> decoder x = decoder y ->
             commandHandler x = commandHandler y ->
             forall gs, (calls gs x).1 = (calls gs y).1) as Hsame.
  { intros x y H1 H2 H3 H4 H5 gs. rewrite !calls_frame. cbn [fst].
    induction gs as [| g gs IH]; cbn [map]; [reflexivity |].
    rewrite IH, (call_results_agree x y H1 H2 H3 H4 H5 g). reflexivity. }
  split; [split |].
  - intros Hall.
    pose proof (Hall [CallGetRequestHeaderLength; CallGetResponseHeaderLength;
                      CallGetEncoder; CallGetDecoder; CallGetCommandHandler])
      as Hfive.
    rewrite !calls_frame in Hfive.
    cbn [map call fst GetRequestHeaderLength GetResponseHeaderLength
         GetEncoder GetDecoder GetCommandHandler] in Hfive.
    injection Hfive as H1 H2 H3 H4 H5. auto.
  - intros (H1 & H2 & H3 & H4 & H5). apply Hsame; assumption.
  - intros code gs. apply Hsame; reflexivity.
Qed.


Section LawfulRegistry.

(** [init] over any registry: a state, the callee [init] calls, and the
    descriptor a state binds to a discriminator. *)
Variable Reg : Type.
Variable registerProtocol : Z -> BoltProtocol -> Reg -> Reg.
Variable bound : Z -> Reg -> option BoltProtocol.

(** Registering under a discriminator that is free, or already bound to
    the same descriptor, binds it to that descriptor. *)
Hypothesis register_binds :
  forall (code : Z) (p : BoltProtocol) (st : Reg),
    bound code st = None \/ bound code st = Some p ->
    bound code (registerProtocol code p st) = Some p.

(** Registering under one discriminator leaves the others as they were. *)
Hypothesis register_keeps_others :
  forall (code code' : Z) (p : BoltProtocol) (st : Reg),
    code <> code' ->
    bound code' (registerProtocol code p st) = bound code' st.

(** X3: on any registry that honours the two laws above, and from any
    state in which each of the two discriminators is free or already bound
    to its descriptor, [init] leaves PROTOCOL_CODE_V1 bound to [BoltV1] and
    PROTOCOL_CODE_V2 bound to [BoltV2], and changes the binding of no other
    discriminator. *)
Theorem init_binds_both_versions (st : Reg) :
  bound PROTOCOL_CODE_V1 st = None \/ bound PROTOCOL_CODE_V1 st = Some BoltV1 ->
  bound PROTOCOL_CODE_V2 st = None \/ bound PROTOCOL_CODE_V2 st = Some BoltV2 ->
  bound PROTOCOL_CODE_V1 (init registerProtocol st) = Some BoltV1
  /\ bound PROTOCOL_CODE_V2 (init registerProtocol st) = Some BoltV2
  /\ (forall code : Z,
        code <> PROTOCOL_CODE_V1 -> code <> PROTOCOL_CODE_V2 ->
        bound code (init registerProtocol st) = bound code st).
Proof.
  intros H1 H2. unfold init.
  assert (PROTOCOL_CODE_V1 <> PROTOCOL_CODE_V2) as Hne by discriminate.
  assert (PROTOCOL_CODE_V2 <> PROTOCOL_CODE_V1) as Hne' by discriminate.
  split; [| split].
  - rewrite register_keeps_others by exact Hne'.
    apply register_binds. exact H1.
  - apply register_binds.
    rewrite register_keeps_others by exact Hne. exact H2.
  - intros code N1 N2.
    rewrite !register_keeps_others by congruence. reflexivity.
Qed.

(** X4: under the same laws and from the same states, running [init] a
    second time changes no binding: every discriminator is bound after two
    runs to what it is bound to after one. *)
Theorem init_again_changes_no_binding (st : Reg) (code : Z) :
  bound PROTOCOL_CODE_V1 st = None \/ bound PROTOCOL_CODE_V1 st = Some BoltV1 ->
  bound PROTOCOL_CODE_V2 st = None \/ bound PROTOCOL_CODE_V2 st = Some BoltV2 ->
  bound code (init registerProtocol (init registerProtocol st))
  = bound code (init registerProtocol st).
Proof.
  intros H1 H2.
  destruct (init_binds_both_versions st H1 H2) as (B1 & B2 & _).
  destruct (init_binds_both_versions (init registerProtocol st)
              (or_intror B1) (or_intror B2)) as (C1 & C2 & Cother).
  destruct (Z.eq_dec code PROTOCOL_CODE_V1) as [-> | N1]; [congruence |].
  destruct (Z.eq_dec code PROTOCOL_CODE_V2) as [-> | N2]; [congruence |].
  apply Cother; assumption.
Qed.

(** X5: dispatch on any such registry.  After [init], the descriptor a
    supported discriminator is bound to carries that discriminator as its
    own [protocolCode], and its decoder and its encoder are both the codec
    of that wire version: [boltV1Codec] under PROTOCOL_CODE_V1,
    [boltV2Codec] under PROTOCOL_CODE_V2. *)
Theorem init_then_lookup_selects_the_version_codec
  (st : Reg) (code : Z) (p : BoltProtocol) :
  bound PROTOCOL_CODE_V1 st = None \/ bound PROTOCOL_CODE_V1 st = Some BoltV1 ->
  bound PROTOCOL_CODE_V2 st = None \/ bound PROTOCOL_CODE_V2 st = Some BoltV2 ->
  code = PROTOCOL_CODE_V1 \/ code = PROTOCOL_CODE_V2 ->
  bound code (init registerProtocol st) = Some p ->
  protocolCode p = code
  /\ (GetDecoder p).1
     = (if code =? PROTOCOL_CODE_V1 then boltV1Codec else boltV2Codec)
  /\ (GetEncoder p).1 = (GetDecoder p).1.
Proof.
  intros H1 H2 Hcode Hp.
  destruct (init_binds_both_versions st H1 H2) as (B1 & B2 & _).
  destruct Hcode as [-> | ->].
  - rewrite B1 in Hp. injection Hp as <-. repeat split.
  - rewrite B2 in Hp. injection Hp as <-. repeat split.
Qed.

End LawfulRegistry.

(** X6: a heartbeat ack correlates with a heartbeat request exactly when
    both were built from the same request id, and the ack built from a
    request's [ReqId] repeats the request's protocol code, command code,
    version, request id and codec type, with RESPONSE in the place of
    REQUEST. *)
Theorem heartbeat_ack_mirrors_request (requestId ackId : Z) :
  (BoltResponseCommand.ReqId (NewBoltHeartbeatAck ackId)
   = BoltRequestCommand.ReqId (NewBoltHeartbeat requestId)
   <-> ackId = requestId)
  /\ (let request := NewBoltHeartbeat requestId in
      let ack := NewBoltHeartbeatAck (BoltRequestCommand.ReqId request) in
      BoltResponseCommand.Protocol ack = BoltRequestCommand.Protocol request
      /\ BoltResponseCommand.CmdCode ack = BoltRequestCommand.CmdCode request
      /\ BoltResponseCommand.Version ack = BoltRequestCommand.Version request
      /\ BoltResponseCommand.ReqId ack = BoltRequestCommand.ReqId request
      /\ BoltResponseCommand.CodecPro ack = BoltRequestCommand.CodecPro request
      /\ BoltRequestCommand.CmdType request = REQUEST
      /\ BoltResponseCommand.CmdType ack = RESPONSE).
Proof.
  split.
  - unfold NewBoltHeartbeat, NewBoltHeartbeatAck; fields. reflexivity.
  - repeat split.
Qed.

End Bolt.

(** ** The results on concrete commands *)

Example crc32_ieee_check :
  crc32_ieee [49; 50; 51; 52; 53; 54; 55; 56; 57] = 0xCBF43926.
Proof. vm_compute. reflexivity. Qed.

(** With [ver1 = 2] and the switch bit clear, the frame of
    [example_response] is its 22 header bytes and 3 span bytes, no more. *)
Example example_response_frame :
  encodeV2 example_type_byte example_CRC_SWITCH_INDEX crc32_ieee example_response
  = Encoded [2; 2; 0; 0; 2; 1; 0; 0; 0; 77; 5; 0; 0; 0; 0; 0; 0; 1; 0; 0; 0; 2;
             7; 8; 9].
Proof. vm_compute. reflexivity. Qed.


Lemma registered_descriptor_has_its_discriminator_witness :
  In (2, BoltV2) (init recordRegisterProtocol []) /\ protocolCode BoltV2 = 2.
Proof.
  split; [right; left; reflexivity |].
  apply (registered_descriptor_has_its_discriminator 2 BoltV2).
  left. right. left. reflexivity.
Defined.

Lemma decode_encode_roundtrip_witness :
  type_bytes_ok example_type_byte = true
  /\ valid_command example_known_command_code example_MAX_FRAME_SIZE
       example_request = true
  /\ exists frame : list Z,
       encode example_type_byte example_CRC_SWITCH_INDEX crc32_ieee example_request
       = Ok (Encoded frame)
       /\ decode example_type_byte example_known_command_code
            example_MAX_FRAME_SIZE example_CRC_SWITCH_INDEX crc32_ieee frame
          = Ok (Decoded example_request (length frame))
       /\ decode example_type_byte example_known_command_code
            example_MAX_FRAME_SIZE example_CRC_SWITCH_INDEX crc32_ieee
            (frame ++ [2; 2; 0])
          = Ok (Decoded example_request (length frame)).
Proof.
  split; [reflexivity |]. split; [reflexivity |].
  apply (decode_encode_roundtrip example_type_byte example_known_command_code
           example_MAX_FRAME_SIZE example_CRC_SWITCH_INDEX crc32_ieee
           example_request [2; 2; 0]); reflexivity.
Defined.

Lemma v2_crc_trailer_iff_witness :
  v2_frame example_type_byte example_known_command_code example_MAX_FRAME_SIZE
    example_CRC_SWITCH_INDEX crc32_ieee
    [2; 2; 0; 0; 2; 1; 0; 0; 0; 77; 5; 0; 0; 0; 0; 0; 0; 1; 0; 0; 0; 2; 7; 8; 9]
    example_response
  /\ trailer_length example_response 25 = 0.
Proof.
  assert (v2_frame example_type_byte example_known_command_code
            example_MAX_FRAME_SIZE example_CRC_SWITCH_INDEX crc32_ieee
            [2; 2; 0; 0; 2; 1; 0; 0; 0; 77; 5; 0; 0; 0; 0; 0; 0; 1; 0; 0; 0; 2;
             7; 8; 9]
            example_response) as Hframe by (left; split; reflexivity).
  split; [exact Hframe |].
  destruct (v2_crc_trailer_iff example_type_byte example_known_command_code
              example_MAX_FRAME_SIZE example_CRC_SWITCH_INDEX crc32_ieee
              _ _ Hframe)
    as (ver1 & switch & header & trailing
        & _ & Hver1 & Hswitch & _ & _ & Htrailer & _ & _ & Hclear & _).
  injection Hver1 as <-. injection Hswitch as <-.
  rewrite (Hclear ltac:(lia) eq_refl) in Htrailer.
  exact (eq_sym Htrailer).
Defined.

Lemma codec_passes_through_except_heartbeats_witness :
  type_bytes_ok example_type_byte = true
  /\ valid_command example_known_command_code example_MAX_FRAME_SIZE
       example_request = true
  /\ exists (frame : list Z) (c' : Command),
       encode example_type_byte example_CRC_SWITCH_INDEX crc32_ieee example_request
       = Ok (Encoded frame)
       /\ frame !! codec_offset example_request = Some (codecType example_request)
       /\ decode example_type_byte example_known_command_code
            example_MAX_FRAME_SIZE example_CRC_SWITCH_INDEX crc32_ieee frame
          = Ok (Decoded c' (length frame))
       /\ codecType c' = codecType example_request.
Proof.
  split; [reflexivity |]. split; [reflexivity |].
  apply (proj2 (codec_passes_through_except_heartbeats
                  example_HEARTBEAT example_HESSIAN_SERIALIZE example_type_byte
                  example_known_command_code example_MAX_FRAME_SIZE
                  example_CRC_SWITCH_INDEX crc32_ieee) example_request);
    reflexivity.
Defined.

(** C6 fails on the code: [NewBoltHeartbeat] is given a request id and
    nothing else, and the command it returns has the codec type
    HESSIAN_SERIALIZE for request id 7 as for request id 8; the
    constructor fixes a codec type that no frame declared. *)
Lemma heartbeat_constructors_hardcode_codec :
  codecType
    (V1Request (NewBoltHeartbeat example_HEARTBEAT example_HESSIAN_SERIALIZE 7))
  = example_HESSIAN_SERIALIZE
  /\ codecType
       (V1Request (NewBoltHeartbeat example_HEARTBEAT example_HESSIAN_SERIALIZE 8))
     = example_HESSIAN_SERIALIZE
  /\ ~ no_hardcoded_codec example_HEARTBEAT example_HESSIAN_SERIALIZE.
Proof.
  split; [reflexivity |]. split; [reflexivity |].
  intros [Hrequest _]. apply Hrequest. apply heartbeat_fixes_codec.
Qed.


Lemma init_binds_both_versions_witness :
  (∅ : gmap Z BoltProtocol) !! PROTOCOL_CODE_V1 = None
  /\ (∅ : gmap Z BoltProtocol) !! PROTOCOL_CODE_V2 = None
  /\ init (fun code p (m : gmap Z BoltProtocol) => <[code := p]> m) ∅
       !! PROTOCOL_CODE_V1 = Some BoltV1.
Proof.
  split; [reflexivity |]. split; [reflexivity |].
  apply (init_binds_both_versions (gmap Z BoltProtocol)
           (fun code p m => <[code := p]> m) (fun code m => m !! code)).
  - intros code p st _. apply lookup_insert_eq.
  - intros code code' p st Hne. apply lookup_insert_ne. exact Hne.
  - left. reflexivity.
  - left. reflexivity.
Defined.

Lemma init_again_changes_no_binding_witness :
  (∅ : gmap Z BoltProtocol) !! PROTOCOL_CODE_V1 = None
  /\ (∅ : gmap Z BoltProtocol) !! PROTOCOL_CODE_V2 = None
  /\ init (fun code p (m : gmap Z BoltProtocol) => <[code := p]> m)
       (init (fun code p (m : gmap Z BoltProtocol) => <[code := p]> m) ∅) !! 2
     = init (fun code p (m : gmap Z BoltProtocol) => <[code := p]> m) ∅ !! 2.
Proof.
  split; [reflexivity |]. split; [reflexivity |].
  apply (init_again_changes_no_binding (gmap Z BoltProtocol)
           (fun code p m => <[code := p]> m) (fun code m => m !! code)).
  - intros code p st _. apply lookup_insert_eq.
  - intros code code' p st Hne. apply lookup_insert_ne. exact Hne.
  - left. reflexivity.
  - left. reflexivity.
Defined.

Lemma init_then_lookup_selects_the_version_codec_witness :
  init (fun code p (m : gmap Z BoltProtocol) => <[code := p]> m) ∅ !! 2
  = Some BoltV2
  /\ (GetDecoder BoltV2).1 = boltV2Codec.
Proof.
  assert (init (fun code p (m : gmap Z BoltProtocol) => <[code := p]> m) ∅ !! 2
          = Some BoltV2) as Hbound by reflexivity.
  split; [exact Hbound |].
  assert (forall (code : Z) (p : BoltProtocol) (st : gmap Z BoltProtocol),
             st !! code = None \/ st !! code = Some p ->
             <[code := p]> st !! code = Some p) as Hbinds
    by (intros code p st _; apply lookup_insert_eq).
  assert (forall (code code' : Z) (p : BoltProtocol) (st : gmap Z BoltProtocol),
             code <> code' -> <[code := p]> st !! code' = st !! code') as Hothers
    by (intros code code' p st Hne; apply lookup_insert_ne; exact Hne).
  destruct (init_then_lookup_selects_the_version_codec (gmap Z BoltProtocol)
              (fun code p m => <[code := p]> m) (fun code m => m !! code)
              Hbinds Hothers ∅ 2 BoltV2) as (_ & Hcodec & _).
  - left. reflexivity.
  - left. reflexivity.
  - right. reflexivity.
  - exact Hbound.
  - exact Hcodec.
Defined.
